(** * Heat-Equation-Simulation: the implicit 1D and 2D solvers

    A shallow embedding of [material.hpp] and [heat_equation_solver.{hpp,cpp}].

    The C++ type [double] is an interface, [Double], with two instances:
    - [binary64]: Rocq's primitive IEEE 754 binary64 floats, the arithmetic the
      compiled program runs where [double] is binary64 and every operation is
      rounded on its own to nearest even (no extended precision, no fused
      multiply-add), with NaN and infinities;
    - [exact]: the real numbers, the arithmetic the numerical scheme is
      designed in.
    Every function of the solvers is written once, over the interface, in the
    order of operations of the source.  A [std::vector<double>] is a [list];
    an [int] is a [Z]. *)

From Stdlib Require Import ZArith List Bool Lia String.
From Stdlib Require Import Floats.
From Stdlib Require Uint63.
From Stdlib Require Import Reals Lra.
Import ListNotations.

Set Implicit Arguments.
Set Warnings "-inexact-float".

(** ** The arithmetic of [double] *)

Class Double (D : Type) : Type := {
  dadd : D -> D -> D;
  dsub : D -> D -> D;
  dmul : D -> D -> D;
  ddiv : D -> D -> D;
  dopp : D -> D;
  dabs : D -> D;                (* std::abs *)
  dltb : D -> D -> bool;        (* a < b  *)
  dleb : D -> D -> bool;        (* a <= b *)
  of_int : Z -> D;              (* an int converted to double, and the
                                   integer-valued literals 1.0, 2.0, 1000.0 *)
  KELVIN_OFFSET : D;            (* 273.15 *)
  lit_0_75 : D;                 (* 0.75   *)
  lit_1e_6 : D                  (* 1e-6   *)
}.

Declare Scope dbl_scope.
Delimit Scope dbl_scope with dbl.
Infix "+" := dadd : dbl_scope.
Infix "-" := dsub : dbl_scope.
Infix "*" := dmul : dbl_scope.
Infix "/" := ddiv : dbl_scope.
Notation "- x" := (dopp x) : dbl_scope.
Notation "x <? y" := (dltb x y) : dbl_scope.
Notation "x <=? y" := (dleb x y) : dbl_scope.
Notation "x >=? y" := (dleb y x) (at level 70) : dbl_scope.
Notation "'#' z" := (of_int z%Z) (at level 1, format "'#' z") : dbl_scope.

(** [std::max(a, b)] is [(a < b) ? b : a]. *)
Definition std_max {D} `{Double D} (a b : D) : D :=
  if (a <? b)%dbl then b else a.

(** *** binary64 *)

Definition float_of_int (z : Z) : float :=
  if (z <? 0)%Z then PrimFloat.opp (PrimFloat.of_uint63 (Uint63.of_Z (- z)))
  else PrimFloat.of_uint63 (Uint63.of_Z z).

#[export] Instance binary64 : Double float := {
  dadd := PrimFloat.add;
  dsub := PrimFloat.sub;
  dmul := PrimFloat.mul;
  ddiv := PrimFloat.div;
  dopp := PrimFloat.opp;
  dabs := PrimFloat.abs;
  dltb := PrimFloat.ltb;
  dleb := PrimFloat.leb;
  of_int := float_of_int;
  KELVIN_OFFSET := 273.15%float;
  lit_0_75 := 0.75%float;
  lit_1e_6 := 1e-6%float
}.

(** *** exact arithmetic *)

Definition Rltb (x y : R) : bool := if Rlt_dec x y then true else false.
Definition Rleb (x y : R) : bool := if Rle_dec x y then true else false.

#[export] Instance exact : Double R := {
  dadd := Rplus;
  dsub := Rminus;
  dmul := Rmult;
  ddiv := Rdiv;
  dopp := Ropp;
  dabs := Rabs;
  dltb := Rltb;
  dleb := Rleb;
  of_int := IZR;
  KELVIN_OFFSET := 273.15%R;
  lit_0_75 := 0.75%R;
  lit_1e_6 := 1e-6%R
}.

(** Reads the operations of the interface at [exact] as those of [R]. *)
Ltac to_R :=
  change (@dadd R exact) with Rplus in *;
  change (@dsub R exact) with Rminus in *;
  change (@dmul R exact) with Rmult in *;
  change (@ddiv R exact) with Rdiv in *;
  change (@dopp R exact) with Ropp in *;
  change (@dabs R exact) with Rabs in *;
  change (@dltb R exact) with Rltb in *;
  change (@dleb R exact) with Rleb in *;
  change (@of_int R exact) with IZR in *.

(** ** [std::vector<double>] and [for] loops *)

Section Vectors.
Context {D : Type} `{Double D}.

(** [std::vector<double> v(n, x)].  A negative [n] makes the source throw
    [std::length_error]; every function below that builds a vector from a
    size that can be negative returns [None] before it does, so that the
    empty vector this gives for [n <= 0] is only ever used for [n = 0]. *)
Definition vec (n : Z) (x : D) : list D := repeat x (Z.to_nat n).

(** [v[i]].  Reading outside [0 <= i < v.size()] is undefined in the source;
    it reads [0.0] here, and no theorem below depends on such a read. *)
Definition vget (v : list D) (i : Z) : D :=
  if (i <? 0)%Z then #0%dbl else nth (Z.to_nat i) v #0%dbl.

Fixpoint set_nth (v : list D) (k : nat) (x : D) : list D :=
  match v, k with
  | [], _ => []
  | _ :: v', O => x :: v'
  | y :: v', S k' => y :: set_nth v' k' x
  end.

(** [v[i] = x].  Writing outside the vector is undefined in the source; it
    leaves the vector as it is here. *)
Definition vset (v : list D) (i : Z) (x : D) : list D :=
  if (i <? 0)%Z then v else set_nth v (Z.to_nat i) x.
End Vectors.

Section Loops.
Context {S : Type}.

Fixpoint for_up (count : nat) (i : Z) (body : Z -> S -> S) (s : S) : S :=
  match count with
  | O => s
  | Datatypes.S k => for_up k (i + 1) body (body i s)
  end.

(** [for (int i = lo; i < hi; i++) body] *)
Definition for_range (lo hi : Z) (body : Z -> S -> S) (s : S) : S :=
  for_up (Z.to_nat (hi - lo)) lo body s.

Fixpoint for_dn (count : nat) (i : Z) (body : Z -> S -> S) (s : S) : S :=
  match count with
  | O => s
  | Datatypes.S k => for_dn k (i - 1) body (body i s)
  end.

(** [for (int i = hi; i >= lo; --i) body] *)
Definition for_down (hi lo : Z) (body : Z -> S -> S) (s : S) : S :=
  for_dn (Z.to_nat (hi - lo + 1)) hi body s.
End Loops.

(** ** material.hpp *)

Record Material (D : Type) : Type := {
  name : string;
  lambda : D;     (* thermal conductivity *)
  rho : D;        (* density *)
  c : D           (* specific heat *)
}.

Definition alpha {D} `{Double D} (m : Material D) : D :=
  (lambda m / (rho m * c m))%dbl.

(** ** The source regions, in the words of the specification

    [in_band lo hi x]: the coordinate [x] lies in [[lo, hi]], bounds included. *)
Definition in_band {D} `{Double D} (lo hi x : D) : bool :=
  ((x >=? lo) && (x <=? hi))%dbl.

(** 1D: [tmax f^2 100] on [[L/10, 2L/10]], [0.75 tmax f^2 100] on
    [[5L/10, 6L/10]], zero elsewhere, at the coordinate [x = i dx]. *)
Definition source_1d {D} `{Double D} (L tmax f dx : D) (i : Z) : D :=
  (let x := #i * dx in
   if in_band (L / #10) (#2 * L / #10) x then tmax * f * f * #100
   else if in_band (#5 * L / #10) (#6 * L / #10) x
        then lit_0_75 * tmax * f * f * #100
   else #0)%dbl.

(** 2D: [tmax f^2 100] where each coordinate lies in [[L/6, 2L/6]] or in
    [[4L/6, 5L/6]], zero elsewhere. *)
Definition source_2d {D} `{Double D} (L tmax f dx : D) (i j : Z) : D :=
  (let x := #i * dx in
   let y := #j * dx in
   if (in_band (L / #6) (#2 * L / #6) x || in_band (#4 * L / #6) (#5 * L / #6) x)
      && (in_band (L / #6) (#2 * L / #6) y || in_band (#4 * L / #6) (#5 * L / #6) y)
   then tmax * f * f * #100
   else #0)%dbl.

(** ** HeatEquationSolver1D *)

Module HeatEquationSolver1D.
Section WithDouble.
Context {D : Type} `{Double D}.
Local Open Scope dbl_scope.

Record state : Type := {
  mat_ : Material D;
  L_ : D;
  tmax_ : D;
  dx_ : D;
  dt_ : D;
  u0_kelvin_ : D;
  t_ : D;
  n_ : Z;
  u_ : list D;
  F_ : list D
}.

Definition set_F (s : state) (F : list D) : state :=
  {| mat_ := mat_ s; L_ := L_ s; tmax_ := tmax_ s; dx_ := dx_ s;
     dt_ := dt_ s; u0_kelvin_ := u0_kelvin_ s; t_ := t_ s; n_ := n_ s;
     u_ := u_ s; F_ := F |}.

Definition set_u_t (s : state) (u : list D) (t : D) : state :=
  {| mat_ := mat_ s; L_ := L_ s; tmax_ := tmax_ s; dx_ := dx_ s;
     dt_ := dt_ s; u0_kelvin_ := u0_kelvin_ s; t_ := t; n_ := n_ s;
     u_ := u; F_ := F_ s |}.

Definition init_source (f : D) (s : state) : state :=
  let f1 := tmax_ s * f * f in
  let f2 := lit_0_75 * tmax_ s * f * f in
  let scale := #100 in
  set_F s
    (for_range 0 (n_ s) (fun i F =>
       let x := #i * dx_ s in
       if (x >=? L_ s / #10) && (x <=? #2 * L_ s / #10) then
         vset F i (f1 * scale)
       else if (x >=? #5 * L_ s / #10) && (x <=? #6 * L_ s / #10) then
         vset F i (f2 * scale)
       else
         vset F i #0)
     (F_ s)).

(** The constructor.  A negative [n] is converted to a huge [size_t] by
    [std::vector<double>(n, ...)], which throws [std::length_error]: [None].
    Nothing else is checked. *)
Definition make (mat : Material D) (L tmax u0 f : D) (n : Z) : option state :=
  if (n <? 0)%Z then None
  else
    let u0_kelvin := u0 + KELVIN_OFFSET in
    Some (init_source f
      {| mat_ := mat; L_ := L; tmax_ := tmax;
         dx_ := L / #(n - 1);
         dt_ := tmax / #1000;
         u0_kelvin_ := u0_kelvin;
         t_ := #0;
         n_ := n;
         u_ := vec n u0_kelvin;
         F_ := vec n #0 |}).

(** Thomas algorithm; returns the solution vector [x]. *)
Definition solve_tridiagonal (a b c d x : list D) : list D :=
  let n := Z.of_nat (List.length b) in
  let c_prime := vec n #0 in
  let d_prime := vec n #0 in
  let c_prime := vset c_prime 0 (vget c 0 / vget b 0) in
  let d_prime := vset d_prime 0 (vget d 0 / vget b 0) in
  let '(c_prime, d_prime) :=
    for_range 1 n (fun i '(c_prime, d_prime) =>
      let denom := vget b i - vget a i * vget c_prime (i - 1) in
      let c_prime := vset c_prime i (vget c i / denom) in
      let d_prime :=
        vset d_prime i ((vget d i - vget a i * vget d_prime (i - 1)) / denom) in
      (c_prime, d_prime))
    (c_prime, d_prime) in
  let x := vset x (n - 1) (vget d_prime (n - 1)) in
  for_down (n - 2) 0 (fun i x =>
    vset x i (vget d_prime i - vget c_prime i * vget x (i + 1))) x.

(** [step()].  With [n_ < 1] and [t_ < tmax_] the source writes [b[0]] of an
    empty vector, which is undefined: [None]. *)
Definition step (s : state) : option (bool * state) :=
  if t_ s >=? tmax_ s then Some (false, s)
  else if (n_ s <? 1)%Z then None
  else
    let alpha := alpha (mat_ s) in
    let r := alpha * dt_ s / (dx_ s * dx_ s) in
    let coef := dt_ s / (rho (mat_ s) * c (mat_ s)) in
    let a := vec (n_ s) (- r) in
    let b := vec (n_ s) (#1 + #2 * r) in
    let c := vec (n_ s) (- r) in
    let d := vec (n_ s) #0 in
    let d := for_range 0 (n_ s) (fun i d =>
               vset d i (vget (u_ s) i + coef * vget (F_ s) i)) d in
    let b := vset b 0 (#1 + r) in
    let c := vset c 0 (- r) in
    let b := vset b (n_ s - 1) #1 in
    let a := vset a (n_ s - 1) #0 in
    let c := vset c (n_ s - 1) #0 in
    let d := vset d (n_ s - 1) (u0_kelvin_ s) in
    let u_new := vec (n_ s) #0 in
    let u_new := solve_tridiagonal a b c d u_new in
    Some (true, set_u_t s u_new (t_ s + dt_ s)).

Definition get_temperature (s : state) : list D := u_ s.
Definition get_time (s : state) : D := t_ s.
Definition get_n (s : state) : Z := n_ s.

(** [std::fill(u_.begin(), u_.end(), u0_kelvin_)] *)
Definition reset (s : state) : state :=
  set_u_t s (map (fun _ => u0_kelvin_ s) (u_ s)) #0.


(** The states a driver reaches from [s] by calling [step()]. *)
Inductive steps (s : state) : state -> Prop :=
| steps_refl : steps s s
| steps_next s1 s2 b :
    steps s s1 -> step s1 = Some (b, s2) -> steps s s2.

(** Everything but the time and the field, and the size of the field. *)
Definition same_config (s0 s : state) : Prop :=
  mat_ s = mat_ s0 /\ L_ s = L_ s0 /\ tmax_ s = tmax_ s0
  /\ dx_ s = dx_ s0 /\ dt_ s = dt_ s0
  /\ u0_kelvin_ s = u0_kelvin_ s0 /\ n_ s = n_ s0
  /\ F_ s = F_ s0
  /\ List.length (u_ s) = Z.to_nat (n_ s0).

(** The driver's loop [while (solver.step()) count++]: the number of
    successful calls before [step()] first returns false, and the state then.
    [None] when [fuel] calls were not enough, or a call was undefined. *)
Fixpoint run (fuel : nat) (s : state) : option (nat * state) :=
  match fuel with
  | O => None
  | S fuel1 =>
      match step s with
      | None => None
      | Some (false, s1) => Some (O, s1)
      | Some (true, s1) =>
          match run fuel1 s1 with
          | Some (k, s2) => Some (S k, s2)
          | None => None
          end
      end
  end.
End WithDouble.
Arguments state : clear implicits.
End HeatEquationSolver1D.

(** ** HeatEquationSolver2D *)

Module HeatEquationSolver2D.
Section WithDouble.
Context {D : Type} `{Double D}.
Local Open Scope dbl_scope.

Record state : Type := {
  mat_ : Material D;
  L_ : D;
  tmax_ : D;
  dx_ : D;
  dt_ : D;
  u0_kelvin_ : D;
  t_ : D;
  n_ : Z;
  u_ : list D;      (* row-major *)
  F_ : list D
}.

Definition set_F (s : state) (F : list D) : state :=
  {| mat_ := mat_ s; L_ := L_ s; tmax_ := tmax_ s; dx_ := dx_ s;
     dt_ := dt_ s; u0_kelvin_ := u0_kelvin_ s; t_ := t_ s; n_ := n_ s;
     u_ := u_ s; F_ := F |}.

Definition set_u_t (s : state) (u : list D) (t : D) : state :=
  {| mat_ := mat_ s; L_ := L_ s; tmax_ := tmax_ s; dx_ := dx_ s;
     dt_ := dt_ s; u0_kelvin_ := u0_kelvin_ s; t_ := t; n_ := n_ s;
     u_ := u; F_ := F_ s |}.

Definition idx (s : state) (i j : Z) : Z := (j * n_ s + i)%Z.

Definition init_source (f : D) (s : state) : state :=
  let f_val := tmax_ s * f * f in
  let scale := #100 in
  set_F s
    (for_range 0 (n_ s) (fun j F =>
       for_range 0 (n_ s) (fun i F =>
         let x := #i * dx_ s in
         let y := #j * dx_ s in
         let in_source := false in
         let in_source :=
           if (x >=? L_ s / #6) && (x <=? #2 * L_ s / #6)
              && (y >=? L_ s / #6) && (y <=? #2 * L_ s / #6)
           then true else in_source in
         let in_source :=
           if (x >=? #4 * L_ s / #6) && (x <=? #5 * L_ s / #6)
              && (y >=? L_ s / #6) && (y <=? #2 * L_ s / #6)
           then true else in_source in
         let in_source :=
           if (x >=? L_ s / #6) && (x <=? #2 * L_ s / #6)
              && (y >=? #4 * L_ s / #6) && (y <=? #5 * L_ s / #6)
           then true else in_source in
         let in_source :=
           if (x >=? #4 * L_ s / #6) && (x <=? #5 * L_ s / #6)
              && (y >=? #4 * L_ s / #6) && (y <=? #5 * L_ s / #6)
           then true else in_source in
         vset F (idx s i j) (if in_source then f_val * scale else #0))
       F)
     (F_ s)).

(** [INT_MAX] is 2147483647, and 46340 is the largest [n] with
    [n * n <= INT_MAX]. *)
Definition max_n : Z := 46340.

(** The constructor.  The vectors have [n * n] entries, also for a negative
    [n]; the product overflows [int] when [n] is beyond [max_n] on either
    side, which is undefined: [None].  Nothing else is checked. *)
Definition make (mat : Material D) (L tmax u0 f : D) (n : Z) : option state :=
  if (n <? - max_n)%Z || (max_n <? n)%Z then None
  else
    let u0_kelvin := u0 + KELVIN_OFFSET in
    Some (init_source f
      {| mat_ := mat; L_ := L; tmax_ := tmax;
         dx_ := L / #(n - 1);
         dt_ := tmax / #1000;
         u0_kelvin_ := u0_kelvin;
         t_ := #0;
         n_ := n;
         u_ := vec (n * n) u0_kelvin;
         F_ := vec (n * n) #0 |}).

Definition max_iter : nat := 100.
Definition tol : D := lit_1e_6.

(** The body of the two inner loops of [step()], at the grid point [(i, j)],
    on the pair of the working copy [u_new] and [max_diff]. *)
Definition relax_point (s : state) (r src_coef : D) (j i : Z)
    (st : list D * D) : list D * D :=
  let '(u_new, max_diff) := st in
  if (i =? n_ s - 1)%Z || (j =? n_ s - 1)%Z then
    (vset u_new (idx s i j) (u0_kelvin_ s), max_diff)
  else
    let old_val := vget u_new (idx s i j) in
    let u_left :=
      if (i >? 0)%Z then vget u_new (idx s (i - 1) j) else vget u_new (idx s 1 j) in
    let u_right := vget u_new (idx s (i + 1) j) in
    let u_down :=
      if (j >? 0)%Z then vget u_new (idx s i (j - 1)) else vget u_new (idx s i 1) in
    let u_up := vget u_new (idx s i (j + 1)) in
    let rhs := vget (u_ s) (idx s i j) + src_coef * vget (F_ s) (idx s i j) in
    let u_new :=
      vset u_new (idx s i j)
        ((rhs + r * (u_left + u_right + u_down + u_up)) / (#1 + #4 * r)) in
    (u_new, std_max max_diff (dabs (vget u_new (idx s i j) - old_val))).

(** One Gauss-Seidel sweep: the body of the [iter] loop up to the test of
    [max_diff]. *)
Definition sweep (s : state) (r src_coef : D) (u_new : list D) : list D * D :=
  for_range 0 (n_ s) (fun j st =>
    for_range 0 (n_ s) (fun i st => relax_point s r src_coef j i st) st)
    (u_new, #0).

(** [for (iter = 0; iter < max_iter; iter++) { sweep; if (max_diff < tol) break; }]
    with [fuel] iterations left. *)
Fixpoint relax (s : state) (r src_coef : D) (fuel : nat) (u_new : list D)
    : list D :=
  match fuel with
  | O => u_new
  | S fuel' =>
      let '(u_new, max_diff) := sweep s r src_coef u_new in
      if max_diff <? tol then u_new else relax s r src_coef fuel' u_new
  end.

Definition step (s : state) : bool * state :=
  if t_ s >=? tmax_ s then (false, s)
  else
    let alpha := alpha (mat_ s) in
    let r := alpha * dt_ s / (dx_ s * dx_ s) in
    let src_coef := dt_ s / (rho (mat_ s) * c (mat_ s)) in
    let u_new := u_ s in
    let u_new := relax s r src_coef max_iter u_new in
    (true, set_u_t s u_new (t_ s + dt_ s)).

Definition get_temperature (s : state) (i j : Z) : D := vget (u_ s) (idx s i j).

(** [result[j][i] = u_[idx(i, j)]] on a vector of [n_] rows of [n_] zeros.
    With a negative [n_] the vector of rows cannot be built
    ([std::length_error]): [None]. *)
Definition get_temperature_2d (s : state) : option (list (list D)) :=
  if (n_ s <? 0)%Z then None
  else
    let result := repeat (vec (n_ s) #0) (Z.to_nat (n_ s)) in
    Some
      (for_range 0 (n_ s) (fun j result =>
         for_range 0 (n_ s) (fun i result =>
           set_nth result (Z.to_nat j)
             (vset (nth (Z.to_nat j) result []) i (vget (u_ s) (idx s i j))))
           result) result).

Definition get_time (s : state) : D := t_ s.
Definition get_tmax (s : state) : D := tmax_ s.
Definition get_n (s : state) : Z := n_ s.

Definition reset (s : state) : state :=
  set_u_t s (map (fun _ => u0_kelvin_ s) (u_ s)) #0.

(** The states a driver reaches from [s] by calling [step()]. *)
Inductive steps (s : state) : state -> Prop :=
| steps_refl : steps s s
| steps_next s1 s2 b :
    steps s s1 -> step s1 = (b, s2) -> steps s s2.

(** Everything but the time and the field, and the size of the field. *)
Definition same_config (s0 s : state) : Prop :=
  mat_ s = mat_ s0 /\ L_ s = L_ s0 /\ tmax_ s = tmax_ s0
  /\ dx_ s = dx_ s0 /\ dt_ s = dt_ s0
  /\ u0_kelvin_ s = u0_kelvin_ s0 /\ n_ s = n_ s0
  /\ F_ s = F_ s0
  /\ List.length (u_ s) = Z.to_nat (n_ s0 * n_ s0).

(** The driver's loop [while (solver.step()) count++], as for the 1D solver. *)
Fixpoint run (fuel : nat) (s : state) : option (nat * state) :=
  match fuel with
  | O => None
  | S fuel1 =>
      match step s with
      | (false, s1) => Some (O, s1)
      | (true, s1) =>
          match run fuel1 s1 with
          | Some (k, s2) => Some (S k, s2)
          | None => None
          end
      end
  end.

(** *** The words of the specification for one sweep

    [dirichlet s k]: the flat index [k] lies on the right or top edge. *)
Definition dirichlet (s : state) (k : Z) : bool :=
  ((k mod n_ s =? n_ s - 1) || (k / n_ s =? n_ s - 1))%Z.

(** The largest absolute change of a sweep from [old] to [new] over the
    points that are not pinned, taken with [std::max] in row-major order
    from [0.0]; [max_change_upto] stops before the flat index [pos]. *)
Definition max_change_upto (s : state) (old new : list D) (pos : Z) : D :=
  fold_left
    (fun m k =>
       if dirichlet s k then m
       else std_max m (dabs (vget new k - vget old k)))
    (map Z.of_nat (seq 0 (Z.to_nat pos))) #0.


(** The Gauss-Seidel value at [(i, j)]: neighbours already visited in this
    sweep (left, down) are read from [new], the others from [old]; the
    missing neighbour at [i = 0] or [j = 0] is the one at index 1. *)
Definition gauss_seidel_value (s : state) (r coef : D) (old new : list D)
    (i j : Z) : D :=
  let left := if (i >? 0)%Z then vget new (idx s (i - 1) j)
              else vget old (idx s 1 j) in
  let right := vget old (idx s (i + 1) j) in
  let down := if (j >? 0)%Z then vget new (idx s i (j - 1))
              else vget old (idx s i 1) in
  let up := vget old (idx s i (j + 1)) in
  (vget (u_ s) (idx s i j) + coef * vget (F_ s) (idx s i j)
     + r * (left + right + down + up)) / (#1 + #4 * r).

(** The value the loop body writes at [(i, j)], read off the working copy. *)
Definition written (s : state) (r coef : D) (cur : list D) (i j : Z) : D :=
  if ((i =? n_ s - 1) || (j =? n_ s - 1))%Z then u0_kelvin_ s
  else
    let u_left := if (i >? 0)%Z then vget cur (idx s (i - 1) j)
                  else vget cur (idx s 1 j) in
    let u_right := vget cur (idx s (i + 1) j) in
    let u_down := if (j >? 0)%Z then vget cur (idx s i (j - 1))
                  else vget cur (idx s i 1) in
    let u_up := vget cur (idx s i (j + 1)) in
    (vget (u_ s) (idx s i j) + coef * vget (F_ s) (idx s i j)
       + r * (u_left + u_right + u_down + u_up)) / (#1 + #4 * r).

(** What the sweep has established when it reaches the flat index [pos]. *)
Definition sweep_inv (s : state) (r coef : D) (buf : list D) (pos : Z)
    (st : list D * D) : Prop :=
  List.length (fst st) = Z.to_nat (n_ s * n_ s)
  /\ (forall k, (pos <= k)%Z -> vget (fst st) k = vget buf k)
  /\ (forall i j, (0 <= i < n_ s)%Z -> (0 <= j < n_ s)%Z ->
        (idx s i j < pos)%Z ->
        vget (fst st) (idx s i j)
        = if ((i =? n_ s - 1) || (j =? n_ s - 1))%Z then u0_kelvin_ s
          else gauss_seidel_value s r coef buf (fst st) i j)
  /\ snd st = max_change_upto s buf (fst st) pos.
(** The buffer after [k] sweeps. *)
Definition sweeps (s : state) (r coef : D) (k : nat) (u : list D) : list D :=
  Nat.iter k (fun b => fst (sweep s r coef b)) u.
End WithDouble.
Arguments state : clear implicits.
End HeatEquationSolver2D.

(** ** The clock of the driver's loop

    What [run] does to the time, from the three time fields alone: the number
    of additions of [dt] until [t >= tmax], and the time then. *)
Fixpoint clock {D} `{Double D} (fuel : nat) (t dt tmax : D) : option (nat * D) :=
  match fuel with
  | O => None
  | S fuel1 =>
      if (t >=? tmax)%dbl then Some (O, t)
      else
        match clock fuel1 (t + dt)%dbl dt tmax with
        | Some (k, t1) => Some (S k, t1)
        | None => None
        end
  end.

(** ** The predefined materials of [material.hpp], in binary64 *)

Module Materials.
Local Open Scope float_scope.
Definition COPPER : Material float :=
  {| name := "Cuivre"; lambda := 389.0; rho := 8940.0; c := 380.0 |}.
Definition IRON : Material float :=
  {| name := "Fer"; lambda := 80.2; rho := 7874.0; c := 440.0 |}.
Definition GLASS : Material float :=
  {| name := "Verre"; lambda := 1.2; rho := 2530.0; c := 840.0 |}.
Definition POLYSTYRENE : Material float :=
  {| name := "Polystyrène"; lambda := 0.1; rho := 1040.0; c := 1200.0 |}.
End Materials.

(** ** Classes of binary64 values *)

Definition finite (x : float) : bool :=
  match Prim2SF x with
  | S754_nan | S754_infinity _ => false
  | _ => true
  end.

Definition is_zero_sf (x : spec_float) : bool :=
  match x with S754_zero _ => true | _ => false end.

(** ** Checks of a binary64 run *)

(** [y] lies within [eps] of [x]. *)
Definition near (eps x y : float) : bool :=
  PrimFloat.ltb (PrimFloat.abs (PrimFloat.sub y x)) eps.



(** ** The order of binary64 *)





(** ** Predicates on the states of the solvers *)

Section StatePredicates.
Context {D : Type} `{Double D}.
Local Open Scope dbl_scope.

(** [on_clock1 mat L tmax u0 f n s t]: [s] is a state the 1D solver built
    from these arguments has reached by calls of [step()], and its time is
    [t]. *)
Definition on_clock1 mat L tmax u0 f n (s : HeatEquationSolver1D.state D)
    (t : D) : Prop :=
  exists s0,
    HeatEquationSolver1D.make mat L tmax u0 f n = Some s0
    /\ HeatEquationSolver1D.steps s0 s
    /\ HeatEquationSolver1D.t_ s = t.

Definition on_clock2 mat L tmax u0 f n (s : HeatEquationSolver2D.state D)
    (t : D) : Prop :=
  exists s0,
    HeatEquationSolver2D.make mat L tmax u0 f n = Some s0
    /\ HeatEquationSolver2D.steps s0 s
    /\ HeatEquationSolver2D.t_ s = t.
End StatePredicates.

(** ** sdl_app.cpp: the application that drives the solvers

    [SDLApp] without its window and its heatmap: the fields the solvers are
    built from and stepped by.  Drawing reads these fields and writes none
    of them.  Of the two constructors this is the one of the grid mode, the
    one [main()] calls.  The application computes in binary64. *)

Module SDLApp.
Local Open Scope Z_scope.

Definition Solver1D : Type := HeatEquationSolver1D.state float.
Definition Solver2D : Type := HeatEquationSolver2D.state float.

Inductive SimType : Type := BAR_1D | PLATE_2D.

(** An [SDL_Event], as far as [run()] and [process_events()] read it. *)
Inductive Keycode : Type :=
  SDLK_ESCAPE | SDLK_SPACE | SDLK_r | SDLK_UP | SDLK_DOWN | SDLK_other.

Inductive Event : Type :=
| SDL_QUIT
| SDL_WINDOWEVENT_CLOSE     (* SDL_WINDOWEVENT with window.event = ..._CLOSE *)
| SDL_KEYDOWN (sym : Keycode)
| SDL_other_event.

Record app : Type := {
  solver_1d_ : option Solver1D;
  solver_2d_ : option Solver2D;
  sim_type_ : SimType;
  material_ : Material float;
  L_ : float;
  tmax_ : float;
  u0_ : float;
  f_ : float;
  n_ : Z;
  paused_ : bool;
  speed_ : Z;
  running_ : bool;
  grid_mode_ : bool;
  solvers_1d_ : list (option Solver1D);   (* [4] *)
  solvers_2d_ : list (option Solver2D);   (* [4] *)
  materials_ : list (Material float)              (* [4] *)
}.

Definition set_solver_1d (a : app) (x : option Solver1D) : app :=
  {| solver_1d_ := x; solver_2d_ := solver_2d_ a; sim_type_ := sim_type_ a;
     material_ := material_ a; L_ := L_ a; tmax_ := tmax_ a; u0_ := u0_ a;
     f_ := f_ a; n_ := n_ a; paused_ := paused_ a; speed_ := speed_ a;
     running_ := running_ a; grid_mode_ := grid_mode_ a;
     solvers_1d_ := solvers_1d_ a; solvers_2d_ := solvers_2d_ a;
     materials_ := materials_ a |}.

Definition set_solver_2d (a : app) (x : option Solver2D) : app :=
  {| solver_1d_ := solver_1d_ a; solver_2d_ := x; sim_type_ := sim_type_ a;
     material_ := material_ a; L_ := L_ a; tmax_ := tmax_ a; u0_ := u0_ a;
     f_ := f_ a; n_ := n_ a; paused_ := paused_ a; speed_ := speed_ a;
     running_ := running_ a; grid_mode_ := grid_mode_ a;
     solvers_1d_ := solvers_1d_ a; solvers_2d_ := solvers_2d_ a;
     materials_ := materials_ a |}.

Definition set_n (a : app) (x : Z) : app :=
  {| solver_1d_ := solver_1d_ a; solver_2d_ := solver_2d_ a;
     sim_type_ := sim_type_ a;
     material_ := material_ a; L_ := L_ a; tmax_ := tmax_ a; u0_ := u0_ a;
     f_ := f_ a; n_ := x; paused_ := paused_ a; speed_ := speed_ a;
     running_ := running_ a; grid_mode_ := grid_mode_ a;
     solvers_1d_ := solvers_1d_ a; solvers_2d_ := solvers_2d_ a;
     materials_ := materials_ a |}.

Definition set_paused (a : app) (x : bool) : app :=
  {| solver_1d_ := solver_1d_ a; solver_2d_ := solver_2d_ a;
     sim_type_ := sim_type_ a;
     material_ := material_ a; L_ := L_ a; tmax_ := tmax_ a; u0_ := u0_ a;
     f_ := f_ a; n_ := n_ a; paused_ := x; speed_ := speed_ a;
     running_ := running_ a; grid_mode_ := grid_mode_ a;
     solvers_1d_ := solvers_1d_ a; solvers_2d_ := solvers_2d_ a;
     materials_ := materials_ a |}.

Definition set_speed (a : app) (x : Z) : app :=
  {| solver_1d_ := solver_1d_ a; solver_2d_ := solver_2d_ a;
     sim_type_ := sim_type_ a;
     material_ := material_ a; L_ := L_ a; tmax_ := tmax_ a; u0_ := u0_ a;
     f_ := f_ a; n_ := n_ a; paused_ := paused_ a; speed_ := x;
     running_ := running_ a; grid_mode_ := grid_mode_ a;
     solvers_1d_ := solvers_1d_ a; solvers_2d_ := solvers_2d_ a;
     materials_ := materials_ a |}.

Definition set_running (a : app) (x : bool) : app :=
  {| solver_1d_ := solver_1d_ a; solver_2d_ := solver_2d_ a;
     sim_type_ := sim_type_ a;
     material_ := material_ a; L_ := L_ a; tmax_ := tmax_ a; u0_ := u0_ a;
     f_ := f_ a; n_ := n_ a; paused_ := paused_ a; speed_ := speed_ a;
     running_ := x; grid_mode_ := grid_mode_ a;
     solvers_1d_ := solvers_1d_ a; solvers_2d_ := solvers_2d_ a;
     materials_ := materials_ a |}.

Definition set_solvers_1d (a : app) (x : list (option Solver1D)) : app :=
  {| solver_1d_ := solver_1d_ a; solver_2d_ := solver_2d_ a;
     sim_type_ := sim_type_ a;
     material_ := material_ a; L_ := L_ a; tmax_ := tmax_ a; u0_ := u0_ a;
     f_ := f_ a; n_ := n_ a; paused_ := paused_ a; speed_ := speed_ a;
     running_ := running_ a; grid_mode_ := grid_mode_ a;
     solvers_1d_ := x; solvers_2d_ := solvers_2d_ a;
     materials_ := materials_ a |}.

Definition set_solvers_2d (a : app) (x : list (option Solver2D)) : app :=
  {| solver_1d_ := solver_1d_ a; solver_2d_ := solver_2d_ a;
     sim_type_ := sim_type_ a;
     material_ := material_ a; L_ := L_ a; tmax_ := tmax_ a; u0_ := u0_ a;
     f_ := f_ a; n_ := n_ a; paused_ := paused_ a; speed_ := speed_ a;
     running_ := running_ a; grid_mode_ := grid_mode_ a;
     solvers_1d_ := solvers_1d_ a; solvers_2d_ := x;
     materials_ := materials_ a |}.

(** [arr[i]] of an array of pointers or materials. *)
Definition elem {A : Type} (arr : list A) (i : Z) (d : A) : A :=
  nth (Z.to_nat i) arr d.

Definition no_material : Material float :=
  {| name := EmptyString; lambda := 0%float; rho := 0%float; c := 0%float |}.

(** [start_grid_simulation()].  [None]: a constructor of a solver threw. *)
Definition start_grid_simulation (a : app) : option app :=
  let a := set_paused a false in
  match sim_type_ a with
  | BAR_1D =>
      let a := set_n a 1001 in
      let a := set_speed a 1 in
      for_range 0 4 (fun i oa =>
        match oa with
        | None => None
        | Some a =>
            match HeatEquationSolver1D.make
                    (elem (materials_ a) i no_material)
                    (L_ a) (tmax_ a) (u0_ a) (f_ a) (n_ a) with
            | None => None
            | Some s =>
                let a := set_solvers_1d a (vset (solvers_1d_ a) i (Some s)) in
                Some (set_solvers_2d a (vset (solvers_2d_ a) i None))
            end
        end) (Some a)
  | PLATE_2D =>
      let a := set_n a 101 in
      let a := set_speed a 1 in
      for_range 0 4 (fun i oa =>
        match oa with
        | None => None
        | Some a =>
            match HeatEquationSolver2D.make
                    (elem (materials_ a) i no_material)
                    (L_ a) (tmax_ a) (u0_ a) (f_ a) (n_ a) with
            | None => None
            | Some s =>
                let a := set_solvers_2d a (vset (solvers_2d_ a) i (Some s)) in
                Some (set_solvers_1d a (vset (solvers_1d_ a) i None))
            end
        end) (Some a)
  end.

(** The constructor of the grid mode, with the four predefined materials. *)
Definition make_grid (type : SimType) (L tmax u0 f : float) : option app :=
  start_grid_simulation
    {| solver_1d_ := None; solver_2d_ := None; sim_type_ := type;
       material_ := Materials.COPPER;
       L_ := L; tmax_ := tmax; u0_ := u0; f_ := f;
       n_ := 1001; paused_ := false; speed_ := 10; running_ := true;
       grid_mode_ := true;
       solvers_1d_ := [None; None; None; None];
       solvers_2d_ := [None; None; None; None];
       materials_ := [Materials.COPPER; Materials.IRON; Materials.GLASS;
                      Materials.POLYSTYRENE] |}.

(** [process_events(event)].  [speed_ + 5] and [speed_ - 5] are [int]
    additions; they stay far from overflow for the speeds the application
    reaches. *)
Definition process_events (a : app) (event : Event) : app :=
  match event with
  | SDL_KEYDOWN SDLK_ESCAPE => set_running a false
  | SDL_KEYDOWN SDLK_SPACE => set_paused a (negb (paused_ a))
  | SDL_KEYDOWN SDLK_r =>
      let a :=
        if grid_mode_ a then
          for_range 0 4 (fun i a =>
            let a :=
              match elem (solvers_1d_ a) i None with
              | Some s =>
                  set_solvers_1d a
                    (vset (solvers_1d_ a) i
                       (Some (HeatEquationSolver1D.reset s)))
              | None => a
              end in
            match elem (solvers_2d_ a) i None with
            | Some s =>
                set_solvers_2d a
                  (vset (solvers_2d_ a) i
                     (Some (HeatEquationSolver2D.reset s)))
            | None => a
            end) a
        else
          let a :=
            match solver_1d_ a with
            | Some s => set_solver_1d a (Some (HeatEquationSolver1D.reset s))
            | None => a
            end in
          match solver_2d_ a with
          | Some s => set_solver_2d a (Some (HeatEquationSolver2D.reset s))
          | None => a
          end in
      set_paused a false
  | SDL_KEYDOWN SDLK_UP =>
      set_speed a
        (Z.min (match sim_type_ a with BAR_1D => 50 | PLATE_2D => 20 end)
               (speed_ a + 5))
  | SDL_KEYDOWN SDLK_DOWN => set_speed a (Z.max 1 (speed_ a - 5))
  | _ => a
  end.

(** The body of the loop over the four solvers in [run()]: every solver of
    the current type makes one step; [all_done] stays true when none
    succeeded.  [None]: a step was undefined. *)
Definition step_all (a : app) : option (app * bool) :=
  for_range 0 4 (fun i st =>
    match st with
    | None => None
    | Some (a, all_done) =>
        match sim_type_ a, elem (solvers_1d_ a) i None,
              elem (solvers_2d_ a) i None with
        | BAR_1D, Some s, _ =>
            match HeatEquationSolver1D.step s with
            | None => None
            | Some (ok, s1) =>
                Some (set_solvers_1d a (vset (solvers_1d_ a) i (Some s1)),
                      if ok then false else all_done)
            end
        | PLATE_2D, _, Some s =>
            let '(ok, s1) := HeatEquationSolver2D.step s in
            Some (set_solvers_2d a (vset (solvers_2d_ a) i (Some s1)),
                  if ok then false else all_done)
        | _, _, _ => Some (a, all_done)
        end
    end) (Some (a, true)).

(** [for (int s = 0; s < speed_; s++) { ... }] of [run()], with [count]
    passes left. *)
Fixpoint speed_loop (count : nat) (a : app) : option app :=
  match count with
  | O => Some a
  | S count1 =>
      if grid_mode_ a then
        match step_all a with
        | None => None
        | Some (a, all_done) =>
            if all_done then Some (set_paused a true) else speed_loop count1 a
        end
      else
        match sim_type_ a, solver_1d_ a, solver_2d_ a with
        | BAR_1D, Some s, _ =>
            match HeatEquationSolver1D.step s with
            | None => None
            | Some (ok, s1) =>
                let a := set_solver_1d a (Some s1) in
                if ok then speed_loop count1 a else Some (set_paused a true)
            end
        | PLATE_2D, _, Some s =>
            let '(ok, s1) := HeatEquationSolver2D.step s in
            let a := set_solver_2d a (Some s1) in
            if ok then speed_loop count1 a else Some (set_paused a true)
        | _, _, _ => speed_loop count1 a
        end
  end.

(** One pass of the loop of [run()] with the events [SDL_PollEvent] hands
    out in it: the events, the test of [running_], and the steps.  The pass
    of the source goes on with [render_grid()] or [render()] and a delay;
    drawing reads the solvers and writes no field of the application, and it
    is left out here, so that [Some] says that the solver calls of the pass
    are defined and says nothing of the drawing. *)
Definition frame (events : list Event) (a : app) : option app :=
  let a :=
    fold_left (fun a event =>
      let a :=
        match event with
        | SDL_QUIT | SDL_WINDOWEVENT_CLOSE => set_running a false
        | _ => a
        end in
      process_events a event) events a in
  if negb (running_ a) then Some a
  else if negb (paused_ a) then speed_loop (Z.to_nat (speed_ a)) a
  else Some a.

(** [run()] over the passes whose events are [frames]. *)
Fixpoint run (frames : list (list Event)) (a : app) : option app :=
  match frames with
  | [] => Some a
  | events :: frames1 =>
      if running_ a then
        match frame events a with
        | None => None
        | Some a1 => run frames1 a1
        end
      else Some a
  end.
End SDLApp.

(** The largest speed the key UP reaches. *)
Definition speed_cap (type : SDLApp.SimType) : Z :=
  match type with SDLApp.BAR_1D => 50%Z | SDLApp.PLATE_2D => 20%Z end.

(** What holds of the application in grid mode, at the common time [t] of
    its four solvers. *)
Definition grid_inv (type : SDLApp.SimType) (L tmax u0 f : float) (t : float)
    (a : SDLApp.app) : Prop :=
  SDLApp.sim_type_ a = type /\ SDLApp.grid_mode_ a = true
  /\ (1 <= SDLApp.speed_ a <= speed_cap type)%Z
  /\ match type with
     | SDLApp.BAR_1D =>
         SDLApp.solvers_2d_ a = [None; None; None; None]
         /\ exists s1 s2 s3 s4,
              SDLApp.solvers_1d_ a = [Some s1; Some s2; Some s3; Some s4]
              /\ on_clock1 Materials.COPPER L tmax u0 f 1001 s1 t
              /\ on_clock1 Materials.IRON L tmax u0 f 1001 s2 t
              /\ on_clock1 Materials.GLASS L tmax u0 f 1001 s3 t
              /\ on_clock1 Materials.POLYSTYRENE L tmax u0 f 1001 s4 t
     | SDLApp.PLATE_2D =>
         SDLApp.solvers_1d_ a = [None; None; None; None]
         /\ exists s1 s2 s3 s4,
              SDLApp.solvers_2d_ a = [Some s1; Some s2; Some s3; Some s4]
              /\ on_clock2 Materials.COPPER L tmax u0 f 101 s1 t
              /\ on_clock2 Materials.IRON L tmax u0 f 101 s2 t
              /\ on_clock2 Materials.GLASS L tmax u0 f 101 s3 t
              /\ on_clock2 Materials.POLYSTYRENE L tmax u0 f 101 s4 t
     end.

(** * Properties *)

Unset Implicit Arguments.

(** ** Vectors and loops *)

Section VectorFacts.
Context {D : Type} `{Double D}.

Lemma length_vec (n : Z) (x : D) : List.length (vec n x) = Z.to_nat n.
Proof. unfold vec. apply repeat_length. Qed.

Lemma length_set_nth (v : list D) k x :
  List.length (set_nth v k x) = List.length v.
Proof.
  revert k. induction v as [|y v IH]; intros [|k]; simpl; auto.
Qed.

Lemma length_vset (v : list D) i x : List.length (vset v i x) = List.length v.
Proof.
  unfold vset. destruct (i <? 0)%Z; auto using length_set_nth.
Qed.

Lemma nth_set_nth_eq (v : list D) k x d :
  (k < List.length v)%nat -> nth k (set_nth v k x) d = x.
Proof.
  revert k. induction v as [|y v IH]; intros [|k] Hk; simpl in *;
    try lia; auto. apply IH. lia.
Qed.

Lemma nth_set_nth_ne (v : list D) k k' x d :
  k <> k' -> nth k' (set_nth v k x) d = nth k' v d.
Proof.
  revert k k'. induction v as [|y v IH]; intros [|k] [|k'] Hk; simpl;
    try congruence; auto.
Qed.

Lemma vget_vset_eq (v : list D) i x :
  (0 <= i < Z.of_nat (List.length v))%Z -> vget (vset v i x) i = x.
Proof.
  intros Hi. unfold vget, vset.
  destruct (i <? 0)%Z eqn:E; [lia|].
  apply nth_set_nth_eq. lia.
Qed.

Lemma vget_vset_ne (v : list D) i j x :
  i <> j -> vget (vset v i x) j = vget v j.
Proof.
  intros Hij. unfold vget, vset.
  destruct (j <? 0)%Z eqn:Ej; auto.
  destruct (i <? 0)%Z eqn:Ei; auto.
  apply nth_set_nth_ne. lia.
Qed.

Lemma vget_vec (n i : Z) (x : D) :
  (0 <= i < n)%Z -> vget (vec n x) i = x.
Proof.
  intros Hi. unfold vget, vec.
  destruct (i <? 0)%Z eqn:E; [lia|].
  apply nth_repeat_lt. lia.
Qed.

Lemma map_const_vec (v : list D) (n : Z) (x : D) :
  List.length v = Z.to_nat n -> map (fun _ => x) v = vec n x.
Proof.
  intros Hl. unfold vec. rewrite <- Hl. clear Hl.
  induction v; simpl; [reflexivity | f_equal; assumption].
Qed.

End VectorFacts.

Section LoopFacts.
Context {S : Type}.

Lemma for_up_last k : forall i (body : Z -> S -> S) s,
  for_up (Datatypes.S k) i body s
  = body (i + Z.of_nat k)%Z (for_up k i body s).
Proof.
  induction k as [|k IH]; intros i body s.
  - simpl. now rewrite Z.add_0_r.
  - change (for_up (Datatypes.S (Datatypes.S k)) i body s)
      with (for_up (Datatypes.S k) (i + 1) body (body i s)).
    rewrite IH. simpl for_up. f_equal. lia.
Qed.

(** The invariant rule of [for (i = lo; i < hi; i++)]. *)
Lemma for_range_inv (P : Z -> S -> Prop) lo hi (body : Z -> S -> S) s :
  (lo <= hi)%Z ->
  P lo s ->
  (forall i s, (lo <= i < hi)%Z -> P i s -> P (i + 1)%Z (body i s)) ->
  P hi (for_range lo hi body s).
Proof.
  intros Hle H0 Hstep. unfold for_range.
  assert (G : forall k, (lo + Z.of_nat k <= hi)%Z ->
              P (lo + Z.of_nat k)%Z (for_up k lo body s)).
  { induction k as [|k IH]; intros Hk.
    - simpl. now rewrite Z.add_0_r.
    - rewrite for_up_last.
      replace (lo + Z.of_nat (Datatypes.S k))%Z
        with (lo + Z.of_nat k + 1)%Z by lia.
      apply Hstep; [lia|]. apply IH. lia. }
  specialize (G (Z.to_nat (hi - lo))).
  replace (lo + Z.of_nat (Z.to_nat (hi - lo)))%Z with hi in G by lia.
  apply G. lia.
Qed.

Lemma for_range_ext lo hi (body body' : Z -> S -> S) s :
  (forall i s, body i s = body' i s) ->
  for_range lo hi body s = for_range lo hi body' s.
Proof.
  intros Hb. unfold for_range. generalize (Z.to_nat (hi - lo)) as k.
  intros k. revert lo s.
  induction k as [|k IH]; intros lo s; simpl; [reflexivity|].
  now rewrite Hb, IH.
Qed.

Lemma for_range_empty lo hi (body : Z -> S -> S) s :
  (hi <= lo)%Z -> for_range lo hi body s = s.
Proof.
  intros Hle. unfold for_range.
  replace (Z.to_nat (hi - lo)) with O by lia. reflexivity.
Qed.

Lemma for_range_last lo hi (body : Z -> S -> S) s :
  (lo < hi)%Z ->
  for_range lo hi body s = body (hi - 1)%Z (for_range lo (hi - 1) body s).
Proof.
  intros Hlt. unfold for_range.
  replace (Z.to_nat (hi - lo)) with (Datatypes.S (Z.to_nat (hi - 1 - lo)))
    by lia.
  rewrite for_up_last. f_equal. lia.
Qed.

Lemma for_down_first hi lo (body : Z -> S -> S) s :
  (lo <= hi)%Z ->
  for_down hi lo body s = for_down (hi - 1) lo body (body hi s).
Proof.
  intros Hle. unfold for_down.
  replace (Z.to_nat (hi - lo + 1))
    with (Datatypes.S (Z.to_nat (hi - 1 - lo + 1))) by lia.
  reflexivity.
Qed.

Lemma for_down_empty hi lo (body : Z -> S -> S) s :
  (hi < lo)%Z -> for_down hi lo body s = s.
Proof.
  intros Hlt. unfold for_down.
  replace (Z.to_nat (hi - lo + 1)) with O by lia. reflexivity.
Qed.

(** The invariant rule of [for (i = hi; i >= lo; --i)]. *)
Lemma for_down_inv (P : Z -> S -> Prop) hi lo (body : Z -> S -> S) s :
  (lo - 1 <= hi)%Z ->
  P hi s ->
  (forall i s, (lo <= i <= hi)%Z -> P i s -> P (i - 1)%Z (body i s)) ->
  P (lo - 1)%Z (for_down hi lo body s).
Proof.
  intros Hle H0 Hstep. unfold for_down.
  remember (Z.to_nat (hi - lo + 1)) as k eqn:Ek.
  revert hi s Hle H0 Hstep Ek.
  induction k as [|k IH]; intros hi s Hle H0 Hstep Ek.
  - simpl. replace (lo - 1)%Z with hi by lia. exact H0.
  - simpl. apply IH; try lia.
    + apply Hstep; [lia|exact H0].
    + intros i s' Hi. apply Hstep. lia.
Qed.
End LoopFacts.

Module S1 := HeatEquationSolver1D.
Module S2 := HeatEquationSolver2D.

(** ** The 1D solver: what a step keeps *)

Section Solver1DFacts.
Context {D : Type} `{Double D}.
Local Open Scope dbl_scope.

Lemma length_solve_tridiagonal (a b c d x : list D) :
  List.length (S1.solve_tridiagonal a b c d x) = List.length x.
Proof.
  unfold S1.solve_tridiagonal.
  destruct (for_range 1 _ _ _) as [c_prime d_prime].
  set (n := Z.of_nat (List.length b)).
  destruct (Z_lt_ge_dec (n - 2) 0) as [Hn|Hn].
  - rewrite for_down_empty by lia. apply length_vset.
  - apply (for_down_inv
             (fun _ y => List.length y = List.length x)); try lia.
    + apply length_vset.
    + intros i y _ Hy. now rewrite length_vset.
Qed.

(** The loops of [solve_tridiagonal] compute the recurrences of the Thomas
    algorithm: [cp] and [dp] are the vectors [c_prime] and [d_prime] after the
    forward elimination. *)
Lemma thomas_recurrence (a b c d x : list D) :
  let n := Z.of_nat (List.length b) in
  let X := S1.solve_tridiagonal a b c d x in
  (1 <= n)%Z -> List.length x = List.length b ->
  exists cp dp : list D,
    vget cp 0 = vget c 0 / vget b 0
    /\ vget dp 0 = vget d 0 / vget b 0
    /\ (forall i, (1 <= i < n)%Z ->
          vget cp i = vget c i / (vget b i - vget a i * vget cp (i - 1))
          /\ vget dp i = (vget d i - vget a i * vget dp (i - 1))
                         / (vget b i - vget a i * vget cp (i - 1)))
    /\ vget X (n - 1) = vget dp (n - 1)
    /\ (forall i, (0 <= i < n - 1)%Z ->
          vget X i = vget dp i - vget cp i * vget X (i + 1)).
Proof.
  intros n X Hn Hx. unfold X, S1.solve_tridiagonal. fold n.
  set (fwd := fun (i : Z) '((c_prime, d_prime) : list D * list D) =>
    let denom := vget b i - vget a i * vget c_prime (i - 1) in
    let c_prime := vset c_prime i (vget c i / denom) in
    let d_prime :=
      vset d_prime i ((vget d i - vget a i * vget d_prime (i - 1)) / denom) in
    (c_prime, d_prime)).
  set (init := (vset (vec n #0) 0 (vget c 0 / vget b 0),
                vset (vec n #0) 0 (vget d 0 / vget b 0))).
  assert (Hfwd :
    let st := for_range 1 n fwd init in
    List.length (fst st) = Z.to_nat n /\ List.length (snd st) = Z.to_nat n
    /\ vget (fst st) 0 = vget c 0 / vget b 0
    /\ vget (snd st) 0 = vget d 0 / vget b 0
    /\ forall i, (1 <= i < n)%Z ->
         vget (fst st) i
         = vget c i / (vget b i - vget a i * vget (fst st) (i - 1))
         /\ vget (snd st) i
            = (vget d i - vget a i * vget (snd st) (i - 1))
              / (vget b i - vget a i * vget (fst st) (i - 1))).
  { apply (for_range_inv (fun k st =>
      List.length (fst st) = Z.to_nat n /\ List.length (snd st) = Z.to_nat n
      /\ vget (fst st) 0 = vget c 0 / vget b 0
      /\ vget (snd st) 0 = vget d 0 / vget b 0
      /\ forall i, (1 <= i < k)%Z ->
           vget (fst st) i
           = vget c i / (vget b i - vget a i * vget (fst st) (i - 1))
           /\ vget (snd st) i
              = (vget d i - vget a i * vget (snd st) (i - 1))
                / (vget b i - vget a i * vget (fst st) (i - 1))));
      [lia| |].
    - unfold init. cbn [fst snd]. rewrite !length_vset, !length_vec.
      rewrite !vget_vset_eq by (rewrite length_vec; lia).
      repeat split; auto; intros; lia.
    - intros k [cp dp]. cbn [fst snd]. intros Hk (Hlc & Hld & Hc0 & Hd0 & Hrec).
      unfold fwd. cbn [fst snd]. rewrite !length_vset.
      split; [exact Hlc|]. split; [exact Hld|].
      rewrite !(vget_vset_ne _ k 0) by lia.
      split; [exact Hc0|]. split; [exact Hd0|].
      intros i Hi. destruct (Z.eq_dec i k) as [->|Hne].
      + rewrite !vget_vset_eq by lia. rewrite !vget_vset_ne by lia. auto.
      + rewrite !vget_vset_ne by lia. apply Hrec. lia. }
  destruct (for_range 1 n fwd init) as [cp dp].
  cbn [fst snd] in Hfwd. destruct Hfwd as (Hlc & Hld & Hc0 & Hd0 & Hrec).
  exists cp, dp.
  split; [exact Hc0|]. split; [exact Hd0|]. split; [exact Hrec|].
  set (back := fun (i : Z) (y : list D) =>
    vset y i (vget dp i - vget cp i * vget y (i + 1))).
  assert (Hback :
    let y := for_down (n - 2) 0 back (vset x (n - 1) (vget dp (n - 1))) in
    List.length y = Z.to_nat n
    /\ vget y (n - 1) = vget dp (n - 1)
    /\ forall i, (0 - 1 < i < n - 1)%Z ->
         vget y i = vget dp i - vget cp i * vget y (i + 1)).
  { apply (for_down_inv (fun k y =>
      List.length y = Z.to_nat n
      /\ vget y (n - 1) = vget dp (n - 1)
      /\ forall i, (k < i < n - 1)%Z ->
           vget y i = vget dp i - vget cp i * vget y (i + 1)));
      [lia| |].
    - rewrite length_vset. split; [lia|].
      split; [apply vget_vset_eq; lia|intros; lia].
    - intros k y Hk (Hly & Hlast & Hrows). unfold back.
      rewrite length_vset. split; [exact Hly|].
      split; [rewrite vget_vset_ne by lia; exact Hlast|].
      intros i Hi. destruct (Z.eq_dec i k) as [->|Hne].
      + rewrite vget_vset_eq by lia. now rewrite vget_vset_ne by lia.
      + rewrite !vget_vset_ne by lia. apply Hrows. lia. }
  cbv zeta in Hback. destruct Hback as (_ & Hlast & Hrows).
  split; [exact Hlast|]. intros i Hi. apply Hrows. lia.
Qed.

Lemma step1_false (s : S1.state D) :
  (S1.t_ s >=? S1.tmax_ s) = true -> S1.step s = Some (false, s).
Proof. intros Ht. unfold S1.step. now rewrite Ht. Qed.

(** A call that is defined and finds [t < tmax] succeeds, adds [dt] to the
    time and keeps the configuration. *)
Lemma step1_true (s : S1.state D) :
  (S1.t_ s >=? S1.tmax_ s) = false -> (1 <= S1.n_ s)%Z ->
  exists u, S1.step s = Some (true, S1.set_u_t s u (S1.t_ s + S1.dt_ s))
            /\ List.length u = Z.to_nat (S1.n_ s).
Proof.
  intros Ht Hn. unfold S1.step. rewrite Ht.
  destruct (S1.n_ s <? 1)%Z eqn:E; [lia|].
  eexists. split; [reflexivity|].
  rewrite length_solve_tridiagonal. apply length_vec.
Qed.

(** The tridiagonal system a successful 1D step solves: the rows before the
    last are [(-r, 1 + 2r, -r | u_i + coef F_i)], with [1 + r] on the diagonal
    of row 0, and the last row is [(0, 1, 0 | u0_kelvin)]. *)
Lemma step1_system (s : S1.state D) :
  (S1.t_ s >=? S1.tmax_ s) = false -> (1 <= S1.n_ s)%Z ->
  let r := alpha (S1.mat_ s) * S1.dt_ s / (S1.dx_ s * S1.dx_ s) in
  let coef := S1.dt_ s / (rho (S1.mat_ s) * c (S1.mat_ s)) in
  exists a b c d : list D,
    S1.step s
    = Some (true,
            S1.set_u_t s
              (S1.solve_tridiagonal a b c d (vec (S1.n_ s) #0))
              (S1.t_ s + S1.dt_ s))
    /\ Z.of_nat (List.length b) = S1.n_ s
    /\ (forall i, (0 <= i < S1.n_ s - 1)%Z ->
          vget a i = - r
          /\ vget b i = (if (i =? 0)%Z then #1 + r else #1 + #2 * r)
          /\ vget c i = - r
          /\ vget d i = vget (S1.u_ s) i + coef * vget (S1.F_ s) i)
    /\ vget a (S1.n_ s - 1) = #0 /\ vget b (S1.n_ s - 1) = #1
    /\ vget c (S1.n_ s - 1) = #0 /\ vget d (S1.n_ s - 1) = S1.u0_kelvin_ s.
Proof.
  intros Ht Hn r coef. unfold S1.step. rewrite Ht.
  destruct (S1.n_ s <? 1)%Z eqn:E; [lia|]. fold r coef.
  set (n := S1.n_ s) in *.
  set (d0 := for_range 0 n
               (fun i d => vset d i (vget (S1.u_ s) i + coef * vget (S1.F_ s) i))
               (vec n #0)).
  assert (Hd0 : List.length d0 = Z.to_nat n
    /\ forall i, (0 <= i < n)%Z ->
         vget d0 i = vget (S1.u_ s) i + coef * vget (S1.F_ s) i).
  { apply (for_range_inv (fun k d =>
      List.length d = Z.to_nat n
      /\ forall i, (0 <= i < k)%Z ->
           vget d i = vget (S1.u_ s) i + coef * vget (S1.F_ s) i));
      [lia|split; [apply length_vec|intros; lia]|].
    intros k d Hk (Hl & Hval). rewrite length_vset. split; [exact Hl|].
    intros i Hi. destruct (Z.eq_dec i k) as [->|Hne].
    - apply vget_vset_eq. lia.
    - rewrite vget_vset_ne by lia. apply Hval. lia. }
  destruct Hd0 as (Hld & Hdval).
  eexists _, _, _, _. split; [reflexivity|].
  rewrite !length_vset, length_vec. split; [lia|]. split.
  - intros i Hi. rewrite !(vget_vset_ne _ (n - 1) i) by lia.
    rewrite vget_vec by lia. rewrite Hdval by lia.
    split; [reflexivity|]. split; [|split; [|reflexivity]].
    + destruct (Z.eqb_spec i 0) as [->|Hne].
      * apply vget_vset_eq. rewrite length_vec. lia.
      * rewrite vget_vset_ne by lia. apply vget_vec. lia.
    + destruct (Z.eq_dec i 0) as [->|Hne].
      * apply vget_vset_eq. rewrite length_vec. lia.
      * rewrite vget_vset_ne by lia. apply vget_vec. lia.
  - repeat split; apply vget_vset_eq;
      rewrite ?length_vset, ?length_vec; lia.
Qed.

Lemma step1_cases (s s1 : S1.state D) b :
  S1.step s = Some (b, s1) ->
  (b = false /\ s1 = s /\ (S1.t_ s >=? S1.tmax_ s) = true)
  \/ (b = true /\ (S1.t_ s >=? S1.tmax_ s) = false /\ (1 <= S1.n_ s)%Z
      /\ exists u, s1 = S1.set_u_t s u (S1.t_ s + S1.dt_ s)
                   /\ List.length u = Z.to_nat (S1.n_ s)).
Proof.
  intros Hs. destruct (S1.t_ s >=? S1.tmax_ s) eqn:Ht.
  - rewrite step1_false in Hs by assumption. inversion Hs. auto.
  - right. destruct (Z_lt_ge_dec (S1.n_ s) 1) as [Hn|Hn].
    + unfold S1.step in Hs. rewrite Ht in Hs.
      destruct (S1.n_ s <? 1)%Z eqn:E; [discriminate|lia].
    + destruct (step1_true s Ht) as (u & Hu & Hl); [lia|].
      rewrite Hu in Hs. inversion Hs. subst.
      repeat split; auto; try lia. exists u. auto.
Qed.

Lemma same_config1_refl (s : S1.state D) :
  List.length (S1.u_ s) = Z.to_nat (S1.n_ s) -> S1.same_config s s.
Proof. unfold S1.same_config. intuition. Qed.

Lemma steps1_same_config (s0 s : S1.state D) :
  List.length (S1.u_ s0) = Z.to_nat (S1.n_ s0) ->
  S1.steps s0 s -> S1.same_config s0 s.
Proof.
  intros Hl Hs. induction Hs as [|s1 s2 b _ IH Hstep].
  - now apply same_config1_refl.
  - destruct (step1_cases _ _ _ Hstep)
      as [(_ & -> & _)|(_ & _ & _ & u & -> & Hu)]; [exact IH|].
    unfold S1.same_config in *. simpl. intuition congruence.
Qed.

(** The state the constructor builds. *)
Lemma make1_fields mat L tmax u0 f n (s0 : S1.state D) :
  S1.make mat L tmax u0 f n = Some s0 ->
  (0 <= n)%Z /\ S1.mat_ s0 = mat /\ S1.L_ s0 = L /\ S1.tmax_ s0 = tmax
  /\ S1.dx_ s0 = L / #(n - 1) /\ S1.dt_ s0 = tmax / #1000
  /\ S1.u0_kelvin_ s0 = u0 + KELVIN_OFFSET /\ S1.t_ s0 = #0
  /\ S1.n_ s0 = n /\ S1.u_ s0 = vec n (u0 + KELVIN_OFFSET).
Proof.
  unfold S1.make. destruct (n <? 0)%Z eqn:E; [discriminate|].
  intros Hs. inversion Hs. simpl. repeat split; auto. lia.
Qed.
End Solver1DFacts.

(** ** The 2D solver: one Gauss-Seidel sweep *)

Section Solver2DSweep.
Context {D : Type} `{Double D}.
Local Open Scope dbl_scope.
Variable s : S2.state D.
Variables r coef : D.
Hypothesis n_nonneg : (0 <= S2.n_ s)%Z.

Local Abbreviation n := (S2.n_ s).

Lemma idx_range i j :
  (0 <= i < n)%Z -> (0 <= j < n)%Z -> (0 <= S2.idx s i j < n * n)%Z.
Proof. unfold S2.idx. nia. Qed.

Lemma idx_mod_div i j :
  (0 <= i < n)%Z ->
  (S2.idx s i j mod n = i)%Z /\ (S2.idx s i j / n = j)%Z.
Proof.
  intros Hi. unfold S2.idx. rewrite Z.add_comm. split.
  - rewrite Z.mod_add by lia. apply Z.mod_small. lia.
  - rewrite Z.div_add by lia. rewrite Z.div_small by lia. lia.
Qed.

Lemma idx_inj i j i' j' :
  (0 <= i < n)%Z -> (0 <= i' < n)%Z ->
  S2.idx s i j = S2.idx s i' j' -> i = i' /\ j = j'.
Proof.
  intros Hi Hi' E.
  destruct (idx_mod_div i j Hi) as [E1 E2].
  destruct (idx_mod_div i' j' Hi') as [E3 E4].
  rewrite E in E1, E2. split; congruence.
Qed.

Lemma dirichlet_idx i j :
  (0 <= i < n)%Z ->
  S2.dirichlet s (S2.idx s i j) = ((i =? n - 1) || (j =? n - 1))%Z.
Proof.
  intros Hi. unfold S2.dirichlet.
  destruct (idx_mod_div i j Hi) as [-> ->]. reflexivity.
Qed.

Lemma relax_point_fst j i cur md :
  fst (S2.relax_point s r coef j i (cur, md))
  = vset cur (S2.idx s i j) (S2.written s r coef cur i j).
Proof.
  unfold S2.relax_point, S2.written.
  destruct ((i =? n - 1) || (j =? n - 1))%Z; reflexivity.
Qed.

Lemma relax_point_snd j i cur md :
  snd (S2.relax_point s r coef j i (cur, md))
  = if ((i =? n - 1) || (j =? n - 1))%Z then md
    else std_max md
           (dabs (vget (vset cur (S2.idx s i j) (S2.written s r coef cur i j))
                       (S2.idx s i j)
                  - vget cur (S2.idx s i j))).
Proof.
  unfold S2.relax_point, S2.written.
  destruct ((i =? n - 1) || (j =? n - 1))%Z; reflexivity.
Qed.

Lemma max_change_upto_succ (old new : list D) pos :
  (0 <= pos)%Z ->
  S2.max_change_upto s old new (pos + 1)
  = let m := S2.max_change_upto s old new pos in
    if S2.dirichlet s pos then m
    else std_max m (dabs (vget new pos - vget old pos)).
Proof.
  intros Hpos. unfold S2.max_change_upto.
  replace (Z.to_nat (pos + 1)) with (Datatypes.S (Z.to_nat pos)) by lia.
  rewrite seq_S, map_app, fold_left_app. simpl.
  now rewrite Z2Nat.id by lia.
Qed.

Lemma max_change_upto_ext (old new new' : list D) pos :
  (forall k, (0 <= k < pos)%Z -> vget new k = vget new' k) ->
  S2.max_change_upto s old new pos = S2.max_change_upto s old new' pos.
Proof.
  unfold S2.max_change_upto.
  destruct (Z_lt_ge_dec pos 0) as [Hneg|Hpos].
  { replace (Z.to_nat pos) with O by lia. reflexivity. }
  intros Hk.
  assert (G : forall p, (Z.of_nat p <= pos)%Z ->
    fold_left (fun m k => if S2.dirichlet s k then m
                 else std_max m (dabs (vget new k - vget old k)))
      (map Z.of_nat (seq 0 p)) #0
    = fold_left (fun m k => if S2.dirichlet s k then m
                 else std_max m (dabs (vget new' k - vget old k)))
      (map Z.of_nat (seq 0 p)) #0).
  { induction p as [|p IH]; intros Hp; [reflexivity|].
    rewrite seq_S, map_app, !fold_left_app. simpl.
    rewrite IH by lia. rewrite Hk by lia. reflexivity. }
  apply G. lia.
Qed.

(** Reading the neighbours off the copy after the write, or off the buffer
    the sweep started from, gives the value written. *)
Lemma written_gauss_seidel buf cur i j v :
  (0 <= i < n)%Z -> (0 <= j < n)%Z ->
  (forall k, (S2.idx s i j <= k)%Z -> vget cur k = vget buf k) ->
  S2.written s r coef cur i j
  = if ((i =? n - 1) || (j =? n - 1))%Z then S2.u0_kelvin_ s
    else S2.gauss_seidel_value s r coef buf
           (vset cur (S2.idx s i j) v) i j.
Proof.
  intros Hi Hj Hb. unfold S2.written, S2.gauss_seidel_value.
  destruct ((i =? n - 1) || (j =? n - 1))%Z eqn:Edge; [reflexivity|].
  assert (Hr : vget cur (S2.idx s (i + 1) j) = vget buf (S2.idx s (i + 1) j))
    by (apply Hb; unfold S2.idx; lia).
  assert (Hu : vget cur (S2.idx s i (j + 1)) = vget buf (S2.idx s i (j + 1)))
    by (apply Hb; unfold S2.idx; nia).
  rewrite Hr, Hu.
  assert (Hl : (if (i >? 0)%Z then vget cur (S2.idx s (i - 1) j)
                else vget cur (S2.idx s 1 j))
               = (if (i >? 0)%Z
                  then vget (vset cur (S2.idx s i j) v) (S2.idx s (i - 1) j)
                  else vget buf (S2.idx s 1 j))).
  { destruct (i >? 0)%Z eqn:E.
    - rewrite vget_vset_ne; [reflexivity|unfold S2.idx; lia].
    - apply Hb. unfold S2.idx. lia. }
  assert (Hd : (if (j >? 0)%Z then vget cur (S2.idx s i (j - 1))
                else vget cur (S2.idx s i 1))
               = (if (j >? 0)%Z
                  then vget (vset cur (S2.idx s i j) v) (S2.idx s i (j - 1))
                  else vget buf (S2.idx s i 1))).
  { destruct (j >? 0)%Z eqn:E.
    - rewrite vget_vset_ne; [reflexivity|unfold S2.idx; nia].
    - apply Hb. unfold S2.idx. nia. }
  rewrite Hl, Hd. reflexivity.
Qed.

(** A later write leaves the Gauss-Seidel value of an earlier point alone. *)
Lemma gauss_seidel_value_frame buf cur pos v i j :
  (0 <= i < n)%Z -> (0 <= j < n)%Z -> (S2.idx s i j < pos)%Z ->
  S2.gauss_seidel_value s r coef buf (vset cur pos v) i j
  = S2.gauss_seidel_value s r coef buf cur i j.
Proof.
  intros Hi Hj Hlt. unfold S2.gauss_seidel_value.
  destruct (i >? 0)%Z eqn:Ei; destruct (j >? 0)%Z eqn:Ej;
    rewrite ?vget_vset_ne; try reflexivity;
    unfold S2.idx in *; nia.
Qed.

Lemma sweep_inv_step buf i j st :
  (0 <= i < n)%Z -> (0 <= j < n)%Z ->
  S2.sweep_inv s r coef buf (S2.idx s i j) st ->
  S2.sweep_inv s r coef buf (S2.idx s i j + 1)
    (S2.relax_point s r coef j i st).
Proof.
  intros Hi Hj. destruct st as [cur md]. intros Hinv.
  unfold S2.sweep_inv in *.
  rewrite relax_point_fst, relax_point_snd.
  cbn [fst snd] in Hinv. destruct Hinv as (Hlen & Hb & Hc & Hd).
  pose proof (idx_range i j Hi Hj) as Hpos.
  pose proof (dirichlet_idx i j Hi) as Hdir.
  set (pos := S2.idx s i j) in *.
  set (w := S2.written s r coef cur i j).
  assert (Hw : vget (vset cur pos w) pos = w)
    by (apply vget_vset_eq; lia).
  split; [now rewrite length_vset|]. split; [|split].
  - intros k Hk. rewrite vget_vset_ne by lia. apply Hb. lia.
  - intros i' j' Hi' Hj' Hlt.
    destruct (Z.eq_dec (S2.idx s i' j') pos) as [E|E].
    + destruct (idx_inj i' j' i j Hi' Hi E) as [-> ->].
      fold pos. rewrite Hw. unfold w.
      apply written_gauss_seidel; auto.
    + rewrite vget_vset_ne by lia.
      rewrite Hc by (auto; lia).
      destruct ((i' =? n - 1) || (j' =? n - 1))%Z; [reflexivity|].
      symmetry. apply gauss_seidel_value_frame; auto. lia.
  - rewrite max_change_upto_succ by lia. cbv zeta.
    rewrite (max_change_upto_ext buf (vset cur pos w) cur pos)
      by (intros k Hk; apply vget_vset_ne; lia).
    rewrite Hdir, <- Hd. rewrite (Hb pos) by lia. reflexivity.
Qed.

(** One sweep, point by point: pinned points hold the reference temperature,
    the others their Gauss-Seidel value, and [max_diff] is the largest change
    of the points that are not pinned. *)
Lemma sweep_spec buf :
  List.length buf = Z.to_nat (n * n) ->
  S2.sweep_inv s r coef buf (n * n) (S2.sweep s r coef buf).
Proof.
  intros Hlen. unfold S2.sweep.
  replace (n * n)%Z with (S2.idx s 0 n) by (unfold S2.idx; lia).
  apply (for_range_inv (fun j st => S2.sweep_inv s r coef buf (S2.idx s 0 j) st));
    [lia| |].
  - unfold S2.sweep_inv, S2.idx. simpl fst. simpl snd.
    split; [exact Hlen|]. split; [reflexivity|]. split; [intros; lia|].
    reflexivity.
  - intros j st Hj Hst.
    replace (S2.idx s 0 (j + 1)) with (S2.idx s n j) by (unfold S2.idx; lia).
    apply (for_range_inv (fun i st => S2.sweep_inv s r coef buf (S2.idx s i j) st));
      [lia|exact Hst|].
    intros i st' Hi Hst'.
    replace (S2.idx s (i + 1) j) with (S2.idx s i j + 1)%Z
      by (unfold S2.idx; lia).
    apply sweep_inv_step; auto; lia.
Qed.

Lemma length_sweep buf :
  List.length buf = Z.to_nat (n * n) ->
  List.length (fst (S2.sweep s r coef buf)) = Z.to_nat (n * n).
Proof. intros Hlen. apply (sweep_spec buf Hlen). Qed.

End Solver2DSweep.

(** ** The 2D solver: relaxation and step *)

Section Solver2DFacts.
Context {D : Type} `{Double D}.
Local Open Scope dbl_scope.

(** A sweep keeps the size of the buffer, also for [n_ <= 0], where it
    visits no point. *)
Lemma length_sweep_any (s : S2.state D) r coef buf :
  List.length (fst (S2.sweep s r coef buf)) = List.length buf.
Proof.
  unfold S2.sweep.
  destruct (Z_lt_ge_dec (S2.n_ s) 0) as [Hneg|Hn].
  { rewrite for_range_empty by lia. reflexivity. }
  apply (for_range_inv
           (fun _ st => List.length (fst st) = List.length buf));
    [lia|reflexivity|].
  intros j st Hj Hst.
  apply (for_range_inv
           (fun _ st => List.length (fst st) = List.length buf));
    [lia|exact Hst|].
  intros i [cur md] Hi Hcur.
  rewrite relax_point_fst, length_vset. exact Hcur.
Qed.

Lemma length_relax (s : S2.state D) r coef fuel : forall buf,
  List.length (S2.relax s r coef fuel buf) = List.length buf.
Proof.
  induction fuel as [|fuel IH]; intros buf; simpl; [reflexivity|].
  pose proof (length_sweep_any s r coef buf) as Hs.
  destruct (S2.sweep s r coef buf) as [u md]. simpl in Hs.
  destruct (md <? S2.tol); [exact Hs|]. now rewrite IH.
Qed.

(** The relaxation runs [k] sweeps, [1 <= k <= fuel]: every sweep before the
    last left [max_diff] at or above the tolerance (or not comparable), and
    the last one is the [fuel]-th or brought [max_diff] below it. *)
Lemma relax_sweeps (s : S2.state D) r coef fuel : forall buf,
  (1 <= fuel)%nat ->
  exists k, (1 <= k <= fuel)%nat
    /\ S2.relax s r coef fuel buf = S2.sweeps s r coef k buf
    /\ (forall m, (S m < k)%nat ->
          (snd (S2.sweep s r coef (S2.sweeps s r coef m buf)) <? S2.tol)
          = false)
    /\ (k = fuel
        \/ (snd (S2.sweep s r coef (S2.sweeps s r coef (Nat.pred k) buf))
              <? S2.tol) = true).
Proof.
  induction fuel as [|fuel IH]; intros buf Hf; [lia|].
  simpl S2.relax.
  destruct (S2.sweep s r coef buf) as [u md] eqn:Es.
  assert (Hu : fst (S2.sweep s r coef buf) = u) by now rewrite Es.
  assert (Hmd : snd (S2.sweep s r coef buf) = md) by now rewrite Es.
  destruct (md <? S2.tol) eqn:Etol.
  - exists 1%nat. split; [lia|]. split; [|split].
    + unfold S2.sweeps. simpl. now rewrite Hu.
    + intros m Hm. lia.
    + right. simpl. now rewrite Hmd.
  - destruct fuel as [|fuel].
    + exists 1%nat. split; [lia|]. split; [|split].
      * unfold S2.sweeps. simpl. now rewrite Hu.
      * intros m Hm. lia.
      * now left.
    + destruct (IH u) as (k & Hk & Hr & Hbefore & Hlast); [lia|].
      assert (Hshift : forall m, S2.sweeps s r coef (S m) buf
                                 = S2.sweeps s r coef m u).
      { intros m. unfold S2.sweeps. rewrite Nat.iter_succ_r. now rewrite Hu. }
      exists (S k). split; [lia|]. split; [|split].
      * now rewrite Hshift.
      * intros [|m] Hm.
        -- unfold S2.sweeps. simpl. now rewrite Hmd.
        -- rewrite Hshift. apply Hbefore. lia.
      * destruct Hlast as [->|Hlast]; [now left|right].
        destruct k as [|k]; [lia|]. simpl Nat.pred in *. now rewrite Hshift.
Qed.

Lemma step2_false (s : S2.state D) :
  (S2.t_ s >=? S2.tmax_ s) = true -> S2.step s = (false, s).
Proof. intros Ht. unfold S2.step. now rewrite Ht. Qed.

Lemma step2_true (s : S2.state D) :
  (S2.t_ s >=? S2.tmax_ s) = false ->
  S2.step s
  = (true,
     S2.set_u_t s
       (S2.relax s (alpha (S2.mat_ s) * S2.dt_ s / (S2.dx_ s * S2.dx_ s))
          (S2.dt_ s / (rho (S2.mat_ s) * c (S2.mat_ s)))
          S2.max_iter (S2.u_ s))
       (S2.t_ s + S2.dt_ s)).
Proof. intros Ht. unfold S2.step. now rewrite Ht. Qed.

Lemma steps2_same_config (s0 s : S2.state D) :
  List.length (S2.u_ s0) = Z.to_nat (S2.n_ s0 * S2.n_ s0) ->
  S2.steps s0 s -> S2.same_config s0 s.
Proof.
  intros Hl Hs. induction Hs as [|s1 s2 b _ IH Hstep].
  - unfold S2.same_config. intuition.
  - destruct (S2.t_ s1 >=? S2.tmax_ s1) eqn:Ht.
    + rewrite step2_false in Hstep by assumption. inversion Hstep. now subst.
    + rewrite step2_true in Hstep by assumption.
      apply pair_equal_spec in Hstep. destruct Hstep as [_ <-].
      unfold S2.same_config, S2.set_u_t in *.
      cbn [S2.mat_ S2.L_ S2.tmax_ S2.dx_ S2.dt_ S2.u0_kelvin_ S2.n_ S2.F_
           S2.u_ S2.t_].
      destruct IH as (? & ? & ? & ? & ? & ? & Hn1 & ? & Hl1).
      repeat split; auto.
      now rewrite length_relax.
Qed.

Lemma make2_fields mat L tmax u0 f n (s0 : S2.state D) :
  S2.make mat L tmax u0 f n = Some s0 ->
  (- S2.max_n <= n <= S2.max_n)%Z /\ S2.mat_ s0 = mat /\ S2.L_ s0 = L
  /\ S2.tmax_ s0 = tmax
  /\ S2.dx_ s0 = L / #(n - 1) /\ S2.dt_ s0 = tmax / #1000
  /\ S2.u0_kelvin_ s0 = u0 + KELVIN_OFFSET /\ S2.t_ s0 = #0
  /\ S2.n_ s0 = n /\ S2.u_ s0 = vec (n * n) (u0 + KELVIN_OFFSET).
Proof.
  unfold S2.make.
  destruct ((n <? - S2.max_n)%Z || (S2.max_n <? n)%Z) eqn:E; [discriminate|].
  apply orb_false_iff in E. destruct E as [E1 E2].
  apply Z.ltb_ge in E1, E2.
  intros Hs. inversion Hs. simpl. repeat split; auto.
Qed.
End Solver2DFacts.

(** ** The driver's loop and the clock *)

Section RunFacts.
Context {D : Type} `{Double D}.
Local Open Scope dbl_scope.

(** The 1D loop succeeds as often as the clock ticks, whatever the field. *)
Lemma run1_clock fuel : forall (s : S1.state D),
  (1 <= S1.n_ s)%Z ->
  match clock fuel (S1.t_ s) (S1.dt_ s) (S1.tmax_ s) with
  | Some (k, t1) =>
      exists s1, S1.run fuel s = Some (k, s1) /\ S1.t_ s1 = t1
                 /\ S1.tmax_ s1 = S1.tmax_ s
  | None => S1.run fuel s = None
  end.
Proof.
  induction fuel as [|fuel IH]; intros s Hn; simpl; [reflexivity|].
  destruct (S1.t_ s >=? S1.tmax_ s) eqn:Ht.
  - rewrite step1_false by exact Ht. exists s. auto.
  - destruct (step1_true s Ht Hn) as (u & -> & _).
    specialize (IH (S1.set_u_t s u (S1.t_ s + S1.dt_ s)) Hn).
    cbn [S1.set_u_t S1.t_ S1.dt_ S1.tmax_] in IH.
    destruct (clock fuel (S1.t_ s + S1.dt_ s) (S1.dt_ s) (S1.tmax_ s))
      as [[k t1]|].
    + destruct IH as (s1 & -> & Ht1 & Hm). exists s1. auto.
    + now rewrite IH.
Qed.

(** So does the 2D loop. *)
Lemma run2_clock fuel : forall (s : S2.state D),
  match clock fuel (S2.t_ s) (S2.dt_ s) (S2.tmax_ s) with
  | Some (k, t1) =>
      exists s1, S2.run fuel s = Some (k, s1) /\ S2.t_ s1 = t1
                 /\ S2.tmax_ s1 = S2.tmax_ s
  | None => S2.run fuel s = None
  end.
Proof.
  induction fuel as [|fuel IH]; intros s; simpl S2.run; simpl clock;
    [reflexivity|].
  destruct (S2.t_ s >=? S2.tmax_ s) eqn:Ht.
  - rewrite step2_false by exact Ht. exists s. auto.
  - rewrite step2_true by exact Ht.
    match goal with |- context [S2.set_u_t s ?u ?t] =>
      specialize (IH (S2.set_u_t s u t)) end.
    cbn [S2.set_u_t S2.t_ S2.dt_ S2.tmax_] in IH.
    destruct (clock fuel (S2.t_ s + S2.dt_ s) (S2.dt_ s) (S2.tmax_ s))
      as [[k t1]|].
    + destruct IH as (s1 & -> & Ht1 & Hm). exists s1. auto.
    + now rewrite IH.
Qed.
End RunFacts.

(** ** Properties that hold in every arithmetic *)

Section GenericProperties.
Context {D : Type} `{Double D}.
Local Open Scope dbl_scope.

(** C3.  Once [t >= tmax], [step()] returns false and leaves the whole state
    as it is, for the 1D and the 2D solver; every later call finds the same
    state and returns false again. *)
Theorem step_past_horizon_noop :
  (forall s : S1.state D,
     (S1.t_ s >=? S1.tmax_ s) = true ->
     S1.step s = Some (false, s)
     /\ forall s1 b s2,
          S1.steps s s1 -> S1.step s1 = Some (b, s2) -> b = false /\ s2 = s)
  /\ (forall s : S2.state D,
        (S2.t_ s >=? S2.tmax_ s) = true ->
        S2.step s = (false, s)
        /\ forall s1 b s2,
             S2.steps s s1 -> S2.step s1 = (b, s2) -> b = false /\ s2 = s).
Proof.
  split; intros s Ht.
  - split; [now apply step1_false|].
    assert (Hfix : forall s1, S1.steps s s1 -> s1 = s).
    { intros s1 Hs. induction Hs as [|s1 s2 b _ IH Hstep]; [reflexivity|].
      subst s1. rewrite step1_false in Hstep by assumption.
      now inversion Hstep. }
    intros s1 b s2 Hs Hstep. rewrite (Hfix s1 Hs) in Hstep.
    rewrite step1_false in Hstep by assumption. now inversion Hstep.
  - split; [now apply step2_false|].
    assert (Hfix : forall s1, S2.steps s s1 -> s1 = s).
    { intros s1 Hs. induction Hs as [|s1 s2 b _ IH Hstep]; [reflexivity|].
      subst s1. rewrite step2_false in Hstep by assumption.
      now inversion Hstep. }
    intros s1 b s2 Hs Hstep. rewrite (Hfix s1 Hs) in Hstep.
    rewrite step2_false in Hstep by assumption. now inversion Hstep.
Qed.

(** C8.  After any number of calls of [step()], [reset()] gives back the
    state the constructor built from the same arguments, field for field,
    and does not touch the source field; 1D and 2D. *)
Theorem reset_restores_fresh_state :
  (forall mat L tmax u0 f n (s0 s : S1.state D),
     S1.make mat L tmax u0 f n = Some s0 -> S1.steps s0 s ->
     S1.reset s = s0
     /\ S1.t_ (S1.reset s) = #0
     /\ S1.u_ (S1.reset s) = vec n (u0 + KELVIN_OFFSET)
     /\ S1.F_ (S1.reset s) = S1.F_ s)
  /\ (forall mat L tmax u0 f n (s0 s : S2.state D),
        S2.make mat L tmax u0 f n = Some s0 -> S2.steps s0 s ->
        S2.reset s = s0
        /\ S2.t_ (S2.reset s) = #0
        /\ S2.u_ (S2.reset s) = vec (n * n) (u0 + KELVIN_OFFSET)
        /\ S2.F_ (S2.reset s) = S2.F_ s).
Proof.
  split; intros mat L tmax u0 f n s0 s Hmake Hsteps.
  - destruct (make1_fields _ _ _ _ _ _ _ Hmake)
      as (Hn & _ & _ & _ & _ & _ & Hk & Ht & Hn0 & Hu).
    assert (Hl : List.length (S1.u_ s0) = Z.to_nat (S1.n_ s0))
      by (rewrite Hu, Hn0; apply length_vec).
    destruct (steps1_same_config s0 s Hl Hsteps)
      as (E1 & E2 & E3 & E4 & E5 & E6 & E7 & E8 & E9).
    assert (Hfill : map (fun _ => S1.u0_kelvin_ s) (S1.u_ s)
                    = vec n (u0 + KELVIN_OFFSET)).
    { rewrite (map_const_vec (S1.u_ s) (S1.n_ s0)) by exact E9.
      now rewrite E6, Hk, Hn0. }
    split; [|split; [reflexivity|split; [exact Hfill|reflexivity]]].
    unfold S1.reset, S1.set_u_t. rewrite Hfill.
    rewrite E1, E2, E3, E4, E5, E6, E7, E8.
    destruct s0; simpl in *. subst. reflexivity.
  - destruct (make2_fields _ _ _ _ _ _ _ Hmake)
      as (Hn & _ & _ & _ & _ & _ & Hk & Ht & Hn0 & Hu).
    assert (Hl : List.length (S2.u_ s0) = Z.to_nat (S2.n_ s0 * S2.n_ s0))
      by (rewrite Hu, Hn0; apply length_vec).
    destruct (steps2_same_config s0 s Hl Hsteps)
      as (E1 & E2 & E3 & E4 & E5 & E6 & E7 & E8 & E9).
    assert (Hfill : map (fun _ => S2.u0_kelvin_ s) (S2.u_ s)
                    = vec (n * n) (u0 + KELVIN_OFFSET)).
    { rewrite (map_const_vec (S2.u_ s) (S2.n_ s0 * S2.n_ s0)) by exact E9.
      now rewrite E6, Hk, Hn0. }
    split; [|split; [reflexivity|split; [exact Hfill|reflexivity]]].
    unfold S2.reset, S2.set_u_t. rewrite Hfill.
    rewrite E1, E2, E3, E4, E5, E6, E7, E8.
    destruct s0; simpl in *. subst. reflexivity.
Qed.

(** What the two loops of [get_temperature_2d] have filled when they reach
    row [j], column [i]. *)
Lemma get_temperature_2d_rows (s : S2.state D) :
  (0 <= S2.n_ s)%Z ->
  exists res,
    S2.get_temperature_2d s = Some res
    /\ List.length res = Z.to_nat (S2.n_ s)
    /\ (forall j, (0 <= j < S2.n_ s)%Z ->
          List.length (nth (Z.to_nat j) res []) = Z.to_nat (S2.n_ s))
    /\ (forall i j, (0 <= i < S2.n_ s)%Z -> (0 <= j < S2.n_ s)%Z ->
          vget (nth (Z.to_nat j) res []) i = vget (S2.u_ s) (S2.idx s i j)).
Proof.
  intros Hn. unfold S2.get_temperature_2d.
  destruct (S2.n_ s <? 0)%Z eqn:Eneg; [lia|]. clear Eneg.
  eexists. split; [reflexivity|]. cbv zeta.
  set (n := S2.n_ s) in *.
  set (filled := fun (j i : Z) (res : list (list D)) =>
    List.length res = Z.to_nat n
    /\ (forall j', (0 <= j' < n)%Z ->
          List.length (nth (Z.to_nat j') res []) = Z.to_nat n)
    /\ (forall i' j', (0 <= i' < n)%Z -> (0 <= j' < n)%Z ->
          (j' < j \/ (j' = j /\ i' < i))%Z ->
          vget (nth (Z.to_nat j') res []) i' = vget (S2.u_ s) (S2.idx s i' j'))).
  assert (G : filled n 0%Z
    (for_range 0 n (fun j result =>
       for_range 0 n (fun i result =>
         set_nth result (Z.to_nat j)
           (vset (nth (Z.to_nat j) result []) i
              (vget (S2.u_ s) (S2.idx s i j)))) result)
       (repeat (vec n #0) (Z.to_nat n)))).
  { apply (for_range_inv (fun j res => filled j 0%Z res)); [lia| |].
    - unfold filled. split; [apply repeat_length|]. split; [|intros; lia].
      intros j' Hj'. rewrite nth_repeat_lt by lia. apply length_vec.
    - intros j res Hj Hres.
      assert (Hrow : filled j n
        (for_range 0 n (fun i result =>
           set_nth result (Z.to_nat j)
             (vset (nth (Z.to_nat j) result []) i
                (vget (S2.u_ s) (S2.idx s i j)))) res)).
      { apply (for_range_inv (fun i res => filled j i res)); [lia|exact Hres|].
        clear res Hres. intros i res Hi (Hlen & Hrows & Hval).
        unfold filled. split; [now rewrite length_set_nth|]. split.
        - intros j' Hj'.
          destruct (Z.eq_dec j' j) as [->|Hne].
          + rewrite nth_set_nth_eq by lia. rewrite length_vset. now apply Hrows.
          + rewrite nth_set_nth_ne by lia. now apply Hrows.
        - intros i' j' Hi' Hj' Hlt.
          destruct (Z.eq_dec j' j) as [->|Hne].
          + rewrite nth_set_nth_eq by lia.
            destruct (Z.eq_dec i' i) as [->|Hni].
            * apply vget_vset_eq. rewrite Hrows by lia. lia.
            * rewrite vget_vset_ne by lia. apply Hval; auto. lia.
          + rewrite nth_set_nth_ne by lia. apply Hval; auto. lia. }
      destruct Hrow as (Hlen & Hrows & Hval).
      unfold filled. repeat split; auto.
      intros i' j' Hi' Hj' Hlt. apply Hval; auto. lia. }
  destruct G as (Hlen & Hrows & Hval).
  repeat split; auto. intros i j Hi Hj. apply Hval; auto. lia.
Qed.

(** C10.  For [0 <= i, j < n] the materialized view exists and agrees with
    the point accessor, [get_temperature(i, j) = get_temperature_2d()[j][i]],
    and both are the entry [j * n + i] of the flat buffer. *)
Theorem point_accessor_agrees_with_view (s : S2.state D) (i j : Z) :
  (0 <= i < S2.n_ s)%Z -> (0 <= j < S2.n_ s)%Z ->
  exists view,
    S2.get_temperature_2d s = Some view
    /\ S2.get_temperature s i j = vget (nth (Z.to_nat j) view []) i
    /\ S2.get_temperature s i j = vget (S2.u_ s) (j * S2.n_ s + i)%Z.
Proof.
  intros Hi Hj.
  destruct (get_temperature_2d_rows s ltac:(lia)) as (view & Hv & _ & _ & Hval).
  exists view. split; [exact Hv|]. split; [|reflexivity].
  symmetry. now apply Hval.
Qed.

(** The source vector after [init_source], 1D. *)
Lemma init_source1_values (f : D) (s : S1.state D) :
  (0 <= S1.n_ s)%Z -> List.length (S1.F_ s) = Z.to_nat (S1.n_ s) ->
  forall i, (0 <= i < S1.n_ s)%Z ->
    vget (S1.F_ (S1.init_source f s)) i
    = source_1d (S1.L_ s) (S1.tmax_ s) f (S1.dx_ s) i.
Proof.
  intros Hn Hlen. unfold S1.init_source, S1.set_F. cbn [S1.F_].
  set (body := fun (i : Z) (F : list D) => _).
  assert (Hbody : forall i F,
    body i F = vset F i (source_1d (S1.L_ s) (S1.tmax_ s) f (S1.dx_ s) i)).
  { intros i F. unfold body, source_1d, in_band. cbv zeta.
    destruct (_ && _); [reflexivity|]. destruct (_ && _); reflexivity. }
  assert (G : List.length (for_range 0 (S1.n_ s) body (S1.F_ s))
              = Z.to_nat (S1.n_ s)
    /\ forall i, (0 <= i < S1.n_ s)%Z ->
         vget (for_range 0 (S1.n_ s) body (S1.F_ s)) i
         = source_1d (S1.L_ s) (S1.tmax_ s) f (S1.dx_ s) i).
  { apply (for_range_inv (fun k F =>
      List.length F = Z.to_nat (S1.n_ s)
      /\ forall i, (0 <= i < k)%Z ->
           vget F i = source_1d (S1.L_ s) (S1.tmax_ s) f (S1.dx_ s) i));
      [lia|split; [exact Hlen|intros; lia]|].
    intros k F Hk (HF & Hval). rewrite Hbody.
    split; [now rewrite length_vset|].
    intros i Hi. destruct (Z.eq_dec i k) as [->|Hne].
    - apply vget_vset_eq. lia.
    - rewrite vget_vset_ne by lia. apply Hval. lia. }
  apply G.
Qed.

(** The four tests of the 2D source, taken together, are the test that each
    coordinate lies in one of the two bands. *)
Lemma four_squares (a1 a2 b1 b2 c1 c2 d1 d2 : bool) :
  (let in_source := false in
   let in_source := if a1 && a2 && c1 && c2 then true else in_source in
   let in_source := if b1 && b2 && c1 && c2 then true else in_source in
   let in_source := if a1 && a2 && d1 && d2 then true else in_source in
   let in_source := if b1 && b2 && d1 && d2 then true else in_source in
   in_source)
  = ((a1 && a2) || (b1 && b2)) && ((c1 && c2) || (d1 && d2)).
Proof.
  destruct a1, a2, b1, b2, c1, c2, d1, d2; reflexivity.
Qed.

(** The source vector after [init_source], 2D. *)
Lemma init_source2_values (f : D) (s : S2.state D) :
  (0 <= S2.n_ s)%Z ->
  List.length (S2.F_ s) = Z.to_nat (S2.n_ s * S2.n_ s) ->
  forall i j, (0 <= i < S2.n_ s)%Z -> (0 <= j < S2.n_ s)%Z ->
    vget (S2.F_ (S2.init_source f s)) (S2.idx s i j)
    = source_2d (S2.L_ s) (S2.tmax_ s) f (S2.dx_ s) i j.
Proof.
  intros Hn Hlen. unfold S2.init_source, S2.set_F. cbn [S2.F_].
  set (body := fun (j i : Z) (F : list D) =>
    vset F (S2.idx s i j)
      (source_2d (S2.L_ s) (S2.tmax_ s) f (S2.dx_ s) i j)).
  rewrite (for_range_ext 0 (S2.n_ s) _
             (fun j F => for_range 0 (S2.n_ s) (fun i F => body j i F) F)).
  2:{ intros j F. apply for_range_ext. intros i F'.
      unfold body, source_2d, in_band. cbv zeta. f_equal.
      pose proof (four_squares
        (#i * S2.dx_ s >=? S2.L_ s / #6) (#i * S2.dx_ s <=? #2 * S2.L_ s / #6)
        (#i * S2.dx_ s >=? #4 * S2.L_ s / #6)
        (#i * S2.dx_ s <=? #5 * S2.L_ s / #6)
        (#j * S2.dx_ s >=? S2.L_ s / #6) (#j * S2.dx_ s <=? #2 * S2.L_ s / #6)
        (#j * S2.dx_ s >=? #4 * S2.L_ s / #6)
        (#j * S2.dx_ s <=? #5 * S2.L_ s / #6))
        as E.
      cbv zeta in E. rewrite E. reflexivity. }
  set (filled := fun (pos : Z) (F : list D) =>
    List.length F = Z.to_nat (S2.n_ s * S2.n_ s)
    /\ forall i j, (0 <= i < S2.n_ s)%Z -> (0 <= j < S2.n_ s)%Z ->
         (S2.idx s i j < pos)%Z ->
         vget F (S2.idx s i j)
         = source_2d (S2.L_ s) (S2.tmax_ s) f (S2.dx_ s) i j).
  assert (G : filled (S2.idx s 0 (S2.n_ s))
    (for_range 0 (S2.n_ s) (fun j F =>
       for_range 0 (S2.n_ s) (fun i F => body j i F) F) (S2.F_ s))).
  { apply (for_range_inv (fun j F => filled (S2.idx s 0 j) F)); [lia| |].
    - split; [exact Hlen|]. unfold S2.idx. intros; lia.
    - intros j F Hj HF.
      replace (S2.idx s 0 (j + 1)) with (S2.idx s (S2.n_ s) j)
        by (unfold S2.idx; lia).
      apply (for_range_inv (fun i F => filled (S2.idx s i j) F));
        [lia|exact HF|].
      clear F HF. intros i F Hi (HF & Hval). unfold body.
      pose proof (idx_range s Hn i j Hi Hj) as Hpos.
      split; [now rewrite length_vset|].
      intros i' j' Hi' Hj' Hlt.
      destruct (Z.eq_dec (S2.idx s i' j') (S2.idx s i j)) as [E|E].
      + destruct (idx_inj s i' j' i j Hi' Hi E) as [-> ->].
        apply vget_vset_eq. lia.
      + rewrite vget_vset_ne by lia. apply Hval; auto.
        unfold S2.idx in *. lia. }
  destruct G as (_ & Hval). intros i j Hi Hj. apply Hval; auto.
  unfold S2.idx. nia.
Qed.

(** The source field the constructors compute is the band formula evaluated
    on the computed coordinate [i * dx] (and [j * dx]) with the computed
    bounds, in the arithmetic of the solver. *)
Lemma source_field_regions :
  (forall mat L tmax u0 f n (s0 : S1.state D) i,
     S1.make mat L tmax u0 f n = Some s0 -> (0 <= i < n)%Z ->
     vget (S1.F_ s0) i = source_1d L tmax f (L / #(n - 1)) i)
  /\ (forall mat L tmax u0 f n (s0 : S2.state D) i j,
        S2.make mat L tmax u0 f n = Some s0 ->
        (0 <= i < n)%Z -> (0 <= j < n)%Z ->
        vget (S2.F_ s0) (j * n + i)%Z
        = source_2d L tmax f (L / #(n - 1)) i j).
Proof.
  split.
  - intros mat L tmax u0 f n s0 i Hmake Hi.
    unfold S1.make in Hmake. destruct (n <? 0)%Z eqn:E; [discriminate|].
    inversion Hmake as [Hs0]. clear Hmake Hs0.
    rewrite init_source1_values; cbn [S1.n_ S1.F_ S1.L_ S1.tmax_ S1.dx_];
      auto; try lia.
    apply length_vec.
  - intros mat L tmax u0 f n s0 i j Hmake Hi Hj.
    unfold S2.make in Hmake.
    destruct ((n <? - S2.max_n)%Z || (S2.max_n <? n)%Z) eqn:E; [discriminate|].
    inversion Hmake as [Hs0]. clear Hmake Hs0.
    set (s := {| S2.mat_ := mat; S2.n_ := n |}).
    change (j * n + i)%Z with (S2.idx s i j).
    apply orb_false_iff in E.
    assert (Hn : (0 <= S2.n_ s)%Z) by (cbn; lia).
    now rewrite (init_source2_values f s Hn (length_vec _ _) i j Hi Hj).
Qed.

Lemma length_sweeps (s : S2.state D) r coef k u :
  (0 <= S2.n_ s)%Z ->
  List.length u = Z.to_nat (S2.n_ s * S2.n_ s) ->
  List.length (S2.sweeps s r coef k u) = Z.to_nat (S2.n_ s * S2.n_ s).
Proof.
  intros Hn Hlen. induction k as [|k IH]; [exact Hlen|].
  unfold S2.sweeps in *. simpl. now apply length_sweep.
Qed.

(** After a successful 2D step every point of the right and top edges holds
    the reference temperature. *)
Lemma dirichlet_pinned_2d (s s1 : S2.state D) i j :
  (0 <= S2.n_ s)%Z ->
  List.length (S2.u_ s) = Z.to_nat (S2.n_ s * S2.n_ s) ->
  S2.step s = (true, s1) ->
  (0 <= i < S2.n_ s)%Z -> (0 <= j < S2.n_ s)%Z ->
  i = (S2.n_ s - 1)%Z \/ j = (S2.n_ s - 1)%Z ->
  S2.get_temperature s1 i j = S2.u0_kelvin_ s.
Proof.
  intros Hn Hlen Hstep Hi Hj Hedge.
  destruct (S2.t_ s >=? S2.tmax_ s) eqn:Ht.
  { rewrite step2_false in Hstep by exact Ht. discriminate. }
  rewrite step2_true in Hstep by exact Ht.
  apply pair_equal_spec in Hstep. destruct Hstep as [_ <-].
  unfold S2.get_temperature, S2.set_u_t, S2.idx. cbn [S2.u_ S2.n_].
  change (j * S2.n_ s + i)%Z with (S2.idx s i j).
  set (r := alpha (S2.mat_ s) * S2.dt_ s / (S2.dx_ s * S2.dx_ s)).
  set (coef := S2.dt_ s / (rho (S2.mat_ s) * c (S2.mat_ s))).
  destruct (relax_sweeps s r coef S2.max_iter (S2.u_ s))
    as (k & Hk & -> & _ & _); [unfold S2.max_iter; lia|].
  destruct k as [|k]; [lia|].
  change (S2.sweeps s r coef (S k) (S2.u_ s))
    with (fst (S2.sweep s r coef (S2.sweeps s r coef k (S2.u_ s)))).
  pose proof (sweep_spec s r coef Hn (S2.sweeps s r coef k (S2.u_ s))
                (length_sweeps s r coef k (S2.u_ s) Hn Hlen))
    as (_ & _ & Hval & _).
  rewrite Hval by (auto; now apply idx_range).
  replace ((i =? S2.n_ s - 1) || (j =? S2.n_ s - 1))%Z with true;
    [reflexivity|].
  symmetry. apply orb_true_iff. lia.
Qed.

(** C6, as amended.  The constructors check nothing of [L], [tmax] or the
    material: the 1D one fails exactly for [n < 0], the 2D one exactly when
    [n * n] does not fit an [int], and on success the solver holds the
    material, [L] and [tmax] as given, with [dx = L / (n - 1)] and
    [dt = tmax / 1000] computed from them. *)
Theorem constructors_check_only_the_size :
  (forall mat L tmax u0 f n,
     (S1.make mat L tmax u0 f n = None <-> (n < 0)%Z)
     /\ forall s0 : S1.state D,
          S1.make mat L tmax u0 f n = Some s0 ->
          S1.mat_ s0 = mat /\ S1.L_ s0 = L /\ S1.tmax_ s0 = tmax
          /\ S1.dx_ s0 = L / #(n - 1) /\ S1.dt_ s0 = tmax / #1000)
  /\ (forall mat L tmax u0 f n,
        (S2.make mat L tmax u0 f n = None <-> (n < -46340 \/ 46340 < n)%Z)
        /\ forall s0 : S2.state D,
             S2.make mat L tmax u0 f n = Some s0 ->
             S2.mat_ s0 = mat /\ S2.L_ s0 = L /\ S2.tmax_ s0 = tmax
             /\ S2.dx_ s0 = L / #(n - 1) /\ S2.dt_ s0 = tmax / #1000).
Proof.
  split; intros mat L tmax u0 f n; split.
  - unfold S1.make. destruct (n <? 0)%Z eqn:E; split; intros Hn;
      try reflexivity; try discriminate; lia.
  - intros s0 Hmake.
    destruct (make1_fields _ _ _ _ _ _ _ Hmake)
      as (_ & ? & ? & ? & ? & ? & _). auto.
  - unfold S2.make, S2.max_n.
    change (Z.opp 46340) with (-46340)%Z.
    destruct (Z.ltb_spec n (-46340)) as [E1|E1];
      destruct (Z.ltb_spec 46340 n) as [E2|E2];
      cbn [orb]; split; intros Hn; try reflexivity; try discriminate; lia.
  - intros s0 Hmake.
    destruct (make2_fields _ _ _ _ _ _ _ Hmake)
      as (_ & ? & ? & ? & ? & ? & _). auto.
Qed.
End GenericProperties.

(** ** binary64 arithmetic the boundary row relies on *)

Section Binary64Facts.
Local Open Scope float_scope.

(** A finite difference has finite operands. *)
Lemma finite_sub x y :
  finite (x - y) = true -> finite x = true /\ finite y = true.
Proof.
  unfold finite. rewrite sub_spec.
  destruct (Prim2SF x) as [sx|sx| |sx mx ex], (Prim2SF y) as [sy|sy| |sy my ey];
    try (intros _; split; reflexivity);
    try (cbn; discriminate).
  all: try (destruct sx, sy; cbn; discriminate).
Qed.

(** A finite product has finite factors. *)
Lemma finite_mul x y :
  finite (x * y) = true -> finite x = true /\ finite y = true.
Proof.
  unfold finite. rewrite mul_spec.
  destruct (Prim2SF x) as [sx|sx| |sx mx ex], (Prim2SF y) as [sy|sy| |sy my ey];
    try (intros _; split; reflexivity);
    try (cbn; discriminate).
Qed.

(** [0.0 * y] is a zero when [y] is finite. *)
Lemma mul_zero_finite y :
  finite y = true -> is_zero_sf (Prim2SF (0 * y)) = true.
Proof.
  unfold finite. rewrite mul_spec.
  change (Prim2SF 0) with (S754_zero false).
  destruct (Prim2SF y); try discriminate; reflexivity.
Qed.

(** Subtracting a zero changes nothing, the negative zero apart. *)
Lemma sub_zero x z :
  is_zero_sf (Prim2SF z) = true -> Prim2SF x <> S754_zero true -> x - z = x.
Proof.
  intros Hz Hx. apply Prim2SF_inj. rewrite sub_spec.
  destruct (Prim2SF z) as [sz| | |]; try discriminate.
  destruct (Prim2SF x) as [sx|sx| |sx mx ex]; try reflexivity.
  destruct sx; [congruence|]. destruct sz; reflexivity.
Qed.

Lemma valid_finite_cases m e :
  valid_binary (S754_finite false m e) = true ->
  (e <= 971)%Z /\
  ((Z.pos (digits2_pos m) = 53 /\ -1074 < e)%Z
   \/ (e = -1074 /\ Z.pos (digits2_pos m) <= 53)%Z).
Proof.
  unfold valid_binary, SpecFloat.bounded, SpecFloat.canonical_mantissa, SpecFloat.fexp, SpecFloat.emin,
    FloatOps.emax, FloatOps.prec.
  rewrite andb_true_iff, Z.eqb_eq, Z.leb_le. lia.
Qed.

Lemma div_one_finite s m e :
  valid_binary (S754_finite s m e) = true ->
  SF64div (S754_finite s m e) (S754_finite false 4503599627370496 (-52))
  = S754_finite s m e.
Proof.
  intros Hv.
  assert (Hv' : valid_binary (S754_finite false m e) = true) by exact Hv.
  destruct (valid_finite_cases m e Hv') as (Hmax & Hcases).
  unfold SF64div, SFdiv, SFdiv_core_binary.
  rewrite xorb_false_r.
  cbn [Zdigits2].
  set (d := Z.pos (digits2_pos m)) in *.
  change (Z.pos (digits2_pos 4503599627370496)) with 53%Z.
  destruct Hcases as [(Hd & He)|(He & Hd)].
  - (* normal, not the lowest binade *)
    replace (Z.min _ _) with (e - 1)%Z
      by (unfold SpecFloat.fexp, SpecFloat.emin, FloatOps.emax, FloatOps.prec; lia).
    replace (e - -52 - (e - 1))%Z with 53%Z by lia.
    assert (Hdiv : Z.div_eucl (Z.shiftl (Z.pos m) 53) 4503599627370496
                   = (Z.pos m~0, 0%Z)).
    { rewrite Z.shiftl_mul_pow2 by lia.
      pose proof (Z_div_mod (Z.pos m * 2 ^ 53) 4503599627370496 ltac:(lia))
        as Hdm.
      destruct (Z.div_eucl (Z.pos m * 2 ^ 53) 4503599627370496) as [q r].
      change (2 ^ 53)%Z with 9007199254740992%Z in *.
      assert (q = 2 * Z.pos m)%Z by lia.
      assert (r = 0)%Z by lia. subst. reflexivity. }
    rewrite Hdiv.
    change (new_location 4503599627370496 0) with loc_Exact.
    unfold binary_round_aux, shr_fexp.
    cbn [Zdigits2 digits2_pos shr_record_of_loc].
    rewrite Pos2Z.inj_succ. fold d.
    replace (SpecFloat.fexp FloatOps.prec FloatOps.emax (Z.succ d + (e - 1)) - (e - 1))%Z
      with 1%Z
      by (unfold SpecFloat.fexp, SpecFloat.emin, FloatOps.emax, FloatOps.prec; lia).
    cbn [shr SpecFloat.iter_pos shr_1 shr_m shr_r shr_s loc_of_shr_record round_nearest_even orb].
    cbn [Zdigits2]. fold d.
    replace (SpecFloat.fexp FloatOps.prec FloatOps.emax (d + (e - 1 + 1)) - (e - 1 + 1))%Z
      with 0%Z
      by (unfold SpecFloat.fexp, SpecFloat.emin, FloatOps.emax, FloatOps.prec; lia).
    cbn [shr shr_m].
    replace (e - 1 + 1)%Z with e by lia.
    replace (e <=? FloatOps.emax - FloatOps.prec)%Z with true; [reflexivity|].
    symmetry. apply Z.leb_le. unfold FloatOps.emax, FloatOps.prec. lia.
  - (* lowest binade, subnormal or not *)
    replace (Z.min _ _) with e
      by (unfold SpecFloat.fexp, SpecFloat.emin, FloatOps.emax, FloatOps.prec; lia).
    replace (e - -52 - e)%Z with 52%Z by lia.
    assert (Hdiv : Z.div_eucl (Z.shiftl (Z.pos m) 52) 4503599627370496
                   = (Z.pos m, 0%Z)).
    { rewrite Z.shiftl_mul_pow2 by lia.
      pose proof (Z_div_mod (Z.pos m * 2 ^ 52) 4503599627370496 ltac:(lia))
        as Hdm.
      destruct (Z.div_eucl (Z.pos m * 2 ^ 52) 4503599627370496) as [q r].
      change (2 ^ 52)%Z with 4503599627370496%Z in *.
      assert (q = Z.pos m)%Z by lia.
      assert (r = 0)%Z by lia. subst. reflexivity. }
    rewrite Hdiv.
    change (new_location 4503599627370496 0) with loc_Exact.
    unfold binary_round_aux, shr_fexp.
    cbn [Zdigits2 shr_record_of_loc]. fold d.
    replace (SpecFloat.fexp FloatOps.prec FloatOps.emax (d + e) - e)%Z with 0%Z
      by (unfold SpecFloat.fexp, SpecFloat.emin, FloatOps.emax, FloatOps.prec; lia).
    cbn [shr shr_m shr_r shr_s loc_of_shr_record round_nearest_even orb].
    cbn [Zdigits2]. fold d.
    replace (SpecFloat.fexp FloatOps.prec FloatOps.emax (d + e) - e)%Z with 0%Z
      by (unfold SpecFloat.fexp, SpecFloat.emin, FloatOps.emax, FloatOps.prec; lia).
    cbn [shr shr_m].
    replace (e <=? FloatOps.emax - FloatOps.prec)%Z with true; [reflexivity|].
    symmetry. apply Z.leb_le. unfold FloatOps.emax, FloatOps.prec. lia.
Qed.

(** Division by [1.0] is exact. *)
Lemma div_one x : x / 1 = x.
Proof.
  apply Prim2SF_inj. rewrite div_spec.
  change (Prim2SF 1) with (S754_finite false 4503599627370496 (-52)).
  pose proof (Prim2SF_valid x) as Hv.
  destruct (Prim2SF x) as [s|s| |s m e].
  - cbn. now rewrite xorb_false_r.
  - cbn. now rewrite xorb_false_r.
  - reflexivity.
  - now apply div_one_finite.
Qed.

Lemma shr_1_div2 mrs :
  (0 <= shr_m mrs)%Z -> shr_m (shr_1 mrs) = (shr_m mrs / 2)%Z.
Proof.
  destruct mrs as [m r s]. cbn [shr_m].
  destruct m as [|p|p]; intros Hm; [reflexivity| |lia].
  destruct p as [p|p|]; cbn [shr_1 shr_m].
  - apply Z.div_unique with (r := 1%Z); lia.
  - apply Z.div_unique with (r := 0%Z); lia.
  - reflexivity.
Qed.

Lemma iter_shr_1_div n : forall mrs,
  (0 <= shr_m mrs)%Z ->
  shr_m (SpecFloat.iter_pos shr_1 n mrs) = (shr_m mrs / 2 ^ Z.pos n)%Z.
Proof.
  induction n as [n IH|n IH|]; intros mrs Hm; cbn [SpecFloat.iter_pos].
  - assert (H1 : (0 <= shr_m (shr_1 mrs))%Z)
      by (rewrite shr_1_div2 by assumption; apply Z.div_pos; lia).
    assert (H2 : (0 <= shr_m (SpecFloat.iter_pos shr_1 n (shr_1 mrs)))%Z)
      by (rewrite IH by assumption; apply Z.div_pos; lia).
    rewrite IH, IH, shr_1_div2 by assumption.
    rewrite !Z.div_div by lia. f_equal.
    rewrite Pos2Z.inj_xI, Z.pow_add_r, Z.pow_mul_r, Z.pow_2_r, Z.pow_mul_l
      by lia.
    change (2 ^ 2)%Z with 4%Z. change (2 ^ 1)%Z with 2%Z.
    rewrite <- Z.pow_mul_l. nia.
  - assert (H2 : (0 <= shr_m (SpecFloat.iter_pos shr_1 n mrs))%Z)
      by (rewrite IH by assumption; apply Z.div_pos; lia).
    rewrite IH, IH by assumption.
    rewrite !Z.div_div by lia. f_equal.
    rewrite Pos2Z.inj_xO. rewrite <- Z.pow_add_r by lia. f_equal. lia.
  - rewrite shr_1_div2 by assumption. reflexivity.
Qed.

Lemma digits2_pos_lower m : (2 ^ (Z.pos (digits2_pos m) - 1) <= Z.pos m)%Z.
Proof.
  induction m as [m IH|m IH|]; cbn [digits2_pos].
  - rewrite Pos2Z.inj_succ.
    replace (Z.succ (Z.pos (digits2_pos m)) - 1)%Z
      with (1 + (Z.pos (digits2_pos m) - 1))%Z by lia.
    rewrite Z.pow_add_r by lia. change (2 ^ 1)%Z with 2%Z. lia.
  - rewrite Pos2Z.inj_succ.
    replace (Z.succ (Z.pos (digits2_pos m)) - 1)%Z
      with (1 + (Z.pos (digits2_pos m) - 1))%Z by lia.
    rewrite Z.pow_add_r by lia. change (2 ^ 1)%Z with 2%Z. lia.
  - reflexivity.
Qed.

(** Rounding a nonzero mantissa at an exponent from [emin] on keeps it
    nonzero. *)
Lemma shr_fexp_pos m e l :
  (SpecFloat.emin prec emax <= e)%Z ->
  (0 < shr_m (fst (shr_fexp prec emax (Z.pos m) e l)))%Z
  /\ (SpecFloat.emin prec emax <= snd (shr_fexp prec emax (Z.pos m) e l))%Z.
Proof.
  intros He. unfold shr_fexp. cbn [Zdigits2].
  set (k := (SpecFloat.fexp prec emax (Z.pos (digits2_pos m) + e) - e)%Z).
  assert (Hk : (k < Z.pos (digits2_pos m))%Z)
    by (unfold k, SpecFloat.fexp, SpecFloat.emin, prec, emax in *; lia).
  assert (Hm : shr_m (shr_record_of_loc (Z.pos m) l) = Z.pos m)
    by (destruct l as [|[| |]]; reflexivity).
  unfold shr. destruct k as [|p|p] eqn:Ek; cbn [fst snd].
  - rewrite Hm. lia.
  - rewrite iter_shr_1_div by (rewrite Hm; lia). rewrite Hm. split; [|lia].
    apply Z.div_str_pos. split; [apply Z.pow_pos_nonneg; lia|].
    pose proof (digits2_pos_lower m) as Hd.
    assert (2 ^ Z.pos p <= 2 ^ (Z.pos (digits2_pos m) - 1))%Z
      by (apply Z.pow_le_mono_r; lia).
    lia.
  - rewrite Hm. lia.
Qed.

Lemma round_nearest_even_pos m l :
  (0 < m)%Z -> (0 < round_nearest_even m l)%Z.
Proof.
  intros Hm. destruct l as [|[| |]]; cbn [round_nearest_even]; try lia.
  destruct (Z.even m); lia.
Qed.

Lemma binary_round_aux_not_zero sx m e l s' :
  (SpecFloat.emin prec emax <= e)%Z ->
  binary_round_aux prec emax sx (Z.pos m) e l <> S754_zero s'.
Proof.
  intros He. unfold binary_round_aux.
  destruct (shr_fexp_pos m e l He) as [H1 H2].
  destruct (shr_fexp prec emax (Z.pos m) e l) as [mrs1 e1]. cbn [fst snd] in *.
  pose proof (round_nearest_even_pos (shr_m mrs1) (loc_of_shr_record mrs1) H1)
    as H3.
  destruct (round_nearest_even (shr_m mrs1) (loc_of_shr_record mrs1))
    as [|m2|m2]; try lia.
  destruct (shr_fexp_pos m2 e1 loc_Exact H2) as [H4 _].
  destruct (shr_fexp prec emax (Z.pos m2) e1 loc_Exact) as [mrs2 e2].
  cbn [fst snd] in *.
  destruct (shr_m mrs2); try lia.
  destruct (e2 <=? emax - prec)%Z; discriminate.
Qed.

Lemma binary_round_not_zero sx m e s' :
  (SpecFloat.emin prec emax <= e)%Z ->
  binary_round prec emax sx m e <> S754_zero s'.
Proof.
  intros He. unfold binary_round.
  destruct (shl_align m e _) as [mz ez] eqn:E.
  apply binary_round_aux_not_zero.
  unfold shl_align in E.
  destruct (SpecFloat.fexp prec emax (Z.pos (digits2_pos m) + e) - e)%Z eqn:Ed;
    inversion E; subst; try lia.
  unfold SpecFloat.fexp. lia.
Qed.

(** Adding a nonzero finite number never gives the negative zero. *)
Lemma add_finite_not_negzero x s m e :
  valid_binary (S754_finite s m e) = true ->
  Prim2SF (x + SF2Prim (S754_finite s m e)) <> S754_zero true.
Proof.
  intros Hv.
  rewrite FloatAxioms.add_spec, Prim2SF_SF2Prim by exact Hv.
  pose proof (Prim2SF_valid x) as Hx.
  destruct (Prim2SF x) as [sx|sx| |sx mx ex]; cbn [SF64add SFadd];
    try discriminate.
  assert (He : (SpecFloat.emin prec emax <= Z.min ex e)%Z).
  { revert Hx Hv.
    unfold valid_binary, SpecFloat.bounded, SpecFloat.canonical_mantissa,
      SpecFloat.fexp.
    rewrite !andb_true_iff, !Z.eqb_eq. lia. }
  unfold binary_normalize.
  destruct (_ + _)%Z; [discriminate| |]; now apply binary_round_not_zero.
Qed.

(** The Kelvin reference temperature [u0 + 273.15] is never the negative
    zero. *)
Lemma kelvin_not_negzero u0 : Prim2SF (u0 + 273.15) <> S754_zero true.
Proof.
  exact (add_finite_not_negzero u0 false 4805305618032230 (-44) eq_refl).
Qed.
End Binary64Facts.

(** ** The program in binary64 *)

Section Binary64Properties.
Local Open Scope float_scope.

Lemma one_not_negzero : Prim2SF 1 <> S754_zero true.
Proof. discriminate. Qed.

(** The boundary row of the 1D system, solved in binary64: when the entry
    next to the boundary came out finite, the elimination left the row
    [(0, 1, 0 | u0_kelvin)] as it was. *)
Lemma dirichlet_pinned_1d (s s1 : S1.state float) :
  S1.step s = Some (true, s1) ->
  Prim2SF (S1.u0_kelvin_ s) <> S754_zero true ->
  ((2 <= S1.n_ s)%Z -> finite (vget (S1.u_ s1) (S1.n_ s - 2)) = true) ->
  vget (S1.u_ s1) (S1.n_ s - 1) = S1.u0_kelvin_ s.
Proof.
  intros Hstep Hu0 Hfin.
  destruct (step1_cases s s1 true Hstep)
    as [(Hb & _)|(_ & Ht & Hn & _)]; [discriminate|].
  destruct (step1_system s Ht Hn)
    as (a & b & c & d & Hs & Hlb & _ & Ha & Hb & _ & Hd).
  rewrite Hs in Hstep. inversion Hstep as [Hs1]. subst s1. clear Hstep Hs.
  destruct (thomas_recurrence a b c d (vec (S1.n_ s) (of_int 0)))
    as (cp & dp & _ & Hd0 & Hrec & Hlast & Hrows).
  { lia. }
  { rewrite length_vec. lia. }
  rewrite Hlb in *.
  cbn [S1.set_u_t S1.u_] in *.
  change (@of_int float binary64) with float_of_int in *.
  change (float_of_int 0) with 0 in *.
  change (float_of_int 1) with 1 in *.
  change (@ddiv float binary64) with PrimFloat.div in *.
  change (@dsub float binary64) with PrimFloat.sub in *.
  change (@dmul float binary64) with PrimFloat.mul in *.
  rewrite Hlast.
  destruct (Z.eq_dec (S1.n_ s) 1) as [E1|E1].
  - rewrite E1 in *. change (1 - 1)%Z with 0%Z in *.
    rewrite Hd0, Hb, Hd. apply div_one.
  - destruct (Hrec (S1.n_ s - 1)%Z ltac:(lia)) as [_ ->].
    rewrite Ha, Hb, Hd.
    replace (S1.n_ s - 1 - 1)%Z with (S1.n_ s - 2)%Z by lia.
    specialize (Hfin ltac:(lia)).
    rewrite (Hrows (S1.n_ s - 2)%Z) in Hfin by lia.
    apply finite_sub in Hfin. destruct Hfin as [Hfd Hfc].
    apply finite_mul in Hfc. destruct Hfc as [Hfc _].
    rewrite (sub_zero 1 _ (mul_zero_finite _ Hfc) one_not_negzero).
    rewrite (sub_zero _ _ (mul_zero_finite _ Hfd) Hu0).
    apply div_one.
Qed.

(** C4, as amended.  After a successful step of a solver the constructor
    built, the Dirichlet boundary holds the Kelvin reference temperature
    [u0 + 273.15] exactly: in 2D at every point with [i = n - 1] or
    [j = n - 1], in every arithmetic and without condition; in 1D at the last
    entry, in binary64, when the new field is finite. *)
Theorem dirichlet_boundary_pinned :
  (forall mat L tmax u0 f n (s0 s s1 : S1.state float),
     S1.make mat L tmax u0 f n = Some s0 ->
     S1.steps s0 s -> S1.step s = Some (true, s1) ->
     (forall i, (0 <= i < n)%Z -> finite (vget (S1.u_ s1) i) = true) ->
     vget (S1.u_ s1) (n - 1) = u0 + 273.15)
  /\ (forall (D : Type) (HD : Double D) mat L tmax u0 f n
             (s0 s s1 : S2.state D) i j,
        S2.make mat L tmax u0 f n = Some s0 ->
        S2.steps s0 s -> S2.step s = (true, s1) ->
        (0 <= i < n)%Z -> (0 <= j < n)%Z ->
        i = (n - 1)%Z \/ j = (n - 1)%Z ->
        S2.get_temperature s1 i j = (u0 + KELVIN_OFFSET)%dbl).
Proof.
  split.
  - intros mat L tmax u0 f n s0 s s1 Hmake Hsteps Hstep Hfin.
    destruct (make1_fields _ _ _ _ _ _ _ Hmake)
      as (Hn & _ & _ & _ & _ & _ & Hk & _ & Hn0 & Hu).
    assert (Hl : List.length (S1.u_ s0) = Z.to_nat (S1.n_ s0))
      by (rewrite Hu, Hn0; apply length_vec).
    destruct (steps1_same_config s0 s Hl Hsteps)
      as (_ & _ & _ & _ & _ & Hk' & Hn' & _).
    rewrite <- Hn0, <- Hn'.
    change (u0 + 273.15) with (@dadd float binary64 u0 KELVIN_OFFSET).
    rewrite <- Hk, <- Hk'.
    apply dirichlet_pinned_1d; [exact Hstep| |].
    + rewrite Hk', Hk. apply kelvin_not_negzero.
    + intros Hn2. apply Hfin. lia.
  - intros D HD mat L tmax u0 f n s0 s s1 i j Hmake Hsteps Hstep Hi Hj Hedge.
    destruct (make2_fields _ _ _ _ _ _ _ Hmake)
      as (Hn & _ & _ & _ & _ & _ & Hk & _ & Hn0 & Hu).
    assert (Hl : List.length (S2.u_ s0) = Z.to_nat (S2.n_ s0 * S2.n_ s0))
      by (rewrite Hu, Hn0; apply length_vec).
    destruct (steps2_same_config s0 s Hl Hsteps)
      as (_ & _ & _ & _ & _ & Hk' & Hn' & _ & Hl').
    rewrite <- Hk, <- Hk'.
    apply dirichlet_pinned_2d; rewrite ?Hn'; auto; lia.
Qed.

(** C4 at [n = 5], copper, [L = 1], [tmax = 16], [u0 = 13], [f = 80]. *)
Lemma dirichlet_boundary_pinned_witness :
  exists s0 s1,
    S1.make Materials.COPPER 1 16 13 80 5%Z = Some s0
    /\ S1.step s0 = Some (true, s1)
    /\ vget (S1.u_ s1) (5 - 1)%Z = 13 + 273.15.
Proof.
  eexists. eexists.
  split; [vm_compute; reflexivity|]. split; [vm_compute; reflexivity|].
  eapply (proj1 dirichlet_boundary_pinned Materials.COPPER 1 16 13 80 5%Z).
  - vm_compute. reflexivity.
  - apply S1.steps_refl.
  - vm_compute. reflexivity.
  - intros i Hi.
    assert (Hcases : i = 0%Z \/ i = 1%Z \/ i = 2%Z \/ i = 3%Z \/ i = 4%Z)
      by lia.
    destruct Hcases as [->|[->|[->|[->| ->]]]]; vm_compute; reflexivity.
Defined.

(** C4 as stated fails in 1D: with the source amplitude [f = 1e200] the
    source overflows to infinity, and the first step is successful and leaves
    NaN, not the reference temperature [273.15], in the last entry. *)
Lemma dirichlet_not_pinned_on_overflow :
  exists s0 s1,
    S1.make Materials.COPPER 1 1 0 1e200 5%Z = Some s0
    /\ S1.step s0 = Some (true, s1)
    /\ S1.u0_kelvin_ s0 = 273.15
    /\ vget (S1.u_ s1) (5 - 1)%Z = nan
    /\ (vget (S1.u_ s1) (5 - 1)%Z =? S1.u0_kelvin_ s0) = false.
Proof.
  eexists. eexists.
  split; [vm_compute; reflexivity|]. split; [vm_compute; reflexivity|].
  split; [vm_compute; reflexivity|]. split; vm_compute; reflexivity.
Qed.

(** The clock for [tmax = 10]: [dt] is the double nearest to 0.01, the sum of
    1000 of them is 9.99999999999983, below [tmax], and the loop takes a
    1001st step. *)
Lemma clock_tmax_10 :
  clock 2000 0 (10 / 1000) 10 = Some (1001%nat, 10.009999999999831).
Proof. vm_compute. reflexivity. Qed.

(** C1 at the failing input [tmax = 10.0].  Whatever the material, [L], [u0],
    [f] and [n >= 1], a solver built with [tmax = 10.0] makes 1001 successful
    steps before [step()] first returns false, and the time is then
    10.009999999999831: one step and one [dt] past [tmax]. *)
Theorem step_count_tmax_10 :
  (forall mat L u0 f n (s0 : S1.state float),
     S1.make mat L 10 u0 f n = Some s0 -> (1 <= n)%Z ->
     exists s1, S1.run 2000 s0 = Some (1001%nat, s1)
                /\ S1.t_ s1 = 10.009999999999831)
  /\ (forall mat L u0 f n (s0 : S2.state float),
        S2.make mat L 10 u0 f n = Some s0 ->
        exists s1, S2.run 2000 s0 = Some (1001%nat, s1)
                   /\ S2.t_ s1 = 10.009999999999831).
Proof.
  split.
  - intros mat L u0 f n s0 Hmake Hn.
    destruct (make1_fields _ _ _ _ _ _ _ Hmake)
      as (_ & _ & _ & Htmax & _ & Hdt & _ & Ht & Hn0 & _).
    pose proof (run1_clock 2000 s0 ltac:(lia)) as Hrun.
    rewrite Ht, Hdt, Htmax in Hrun.
    change (clock 2000 _ _ _) with (clock 2000 0 (10 / 1000) 10) in Hrun.
    rewrite clock_tmax_10 in Hrun.
    destruct Hrun as (s1 & Hr & Ht1 & _). exists s1. auto.
  - intros mat L u0 f n s0 Hmake.
    destruct (make2_fields _ _ _ _ _ _ _ Hmake)
      as (_ & _ & _ & Htmax & _ & Hdt & _ & Ht & Hn0 & _).
    pose proof (run2_clock 2000 s0) as Hrun.
    rewrite Ht, Hdt, Htmax in Hrun.
    change (clock 2000 _ _ _) with (clock 2000 0 (10 / 1000) 10) in Hrun.
    rewrite clock_tmax_10 in Hrun.
    destruct Hrun as (s1 & Hr & Ht1 & _). exists s1. auto.
Qed.

(** C1 at copper, [L = 1], [tmax = 10], [u0 = 13], [f = 80], [n = 5]. *)
Lemma step_count_tmax_10_witness :
  exists s0 s1,
    S1.make Materials.COPPER 1 10 13 80 5%Z = Some s0
    /\ S1.run 2000 s0 = Some (1001%nat, s1)
    /\ S1.t_ s1 = 10.009999999999831.
Proof.
  eexists. 
  destruct (proj1 step_count_tmax_10 Materials.COPPER 1 13 80 5%Z _ eq_refl
              ltac:(lia)) as (s1 & Hrun & Ht).
  exists s1. split; [reflexivity|]. split; assumption.
Defined.

(** C5 as stated fails: the direct solve of the example system does not
    return [[1, 1, 1]]; its first entry is 1.5. *)
Lemma thomas_example_not_all_ones :
  S1.solve_tridiagonal [0; -1; -1] [2; 2; 2] [-1; -1; 0] [1; 1; 1] [0; 0; 0]
  = [1.5; 1.9999999999999998; 1.4999999999999998]
  /\ near 1e-9 1
       (vget (S1.solve_tridiagonal [0; -1; -1] [2; 2; 2] [-1; -1; 0]
                [1; 1; 1] [0; 0; 0]) 0)
     = false.
Proof. split; vm_compute; reflexivity. Qed.
End Binary64Properties.

(** ** The order of binary64 and the stopping rule of the relaxation *)

Section GaussSeidelBinary64.
Local Open Scope float_scope.












End GaussSeidelBinary64.

(** ** The scheme in exact arithmetic *)

Section ExactProperties.
Local Open Scope R_scope.












(** The clock in exact arithmetic: [k] additions of [dt = tmax / 1000] give
    [k dt], which reaches [tmax] at the 1000th and not before. *)
Lemma clock_exact (dt tmax : R) j : forall t,
  0 < dt -> tmax = 1000 * dt -> (j <= 1000)%nat ->
  t = IZR (1000 - Z.of_nat j) * dt ->
  exists t1, clock (S j) t dt tmax = Some (j, t1) /\ t1 = tmax.
Proof.
  induction j as [|j IH]; intros t Hdt Htmax Hj Ht.
  - exists t. simpl clock. to_R. unfold Rleb.
    replace (1000 - Z.of_nat 0)%Z with 1000%Z in Ht by lia.
    destruct (Rle_dec tmax t); [split; [reflexivity|lra]|lra].
  - change (clock (S (S j)) t dt tmax)
      with (if dleb tmax t then Some (O, t)
            else match clock (S j) (dadd t dt) dt tmax with
                 | Some (k, t1) => Some (S k, t1)
                 | None => None
                 end).
    to_R. unfold Rleb.
    assert (Hlt : t < tmax).
    { rewrite Ht, Htmax. apply Rmult_lt_compat_r; [exact Hdt|].
      apply IZR_lt. lia. }
    destruct (Rle_dec tmax t); [lra|].
    destruct (IH (t + dt) Hdt Htmax ltac:(lia)) as (t1 & -> & Ht1).
    + rewrite Ht. replace (1000 - Z.of_nat j)%Z
        with (1000 - Z.of_nat (S j) + 1)%Z by lia.
      rewrite plus_IZR. ring.
    + exists t1. auto.
Qed.

(** In exact arithmetic the driver's loop counts as the time step is
    designed: with [tmax > 0] exactly 1000 steps succeed, and the time is
    then [tmax]. *)
Remark step_count_exact :
  (forall mat L tmax u0 f n (s0 : S1.state R),
     0 < tmax -> (1 <= n)%Z -> S1.make mat L tmax u0 f n = Some s0 ->
     exists s1, S1.run 1001 s0 = Some (1000%nat, s1) /\ S1.t_ s1 = tmax)
  /\ (forall mat L tmax u0 f n (s0 : S2.state R),
        0 < tmax -> S2.make mat L tmax u0 f n = Some s0 ->
        exists s1, S2.run 1001 s0 = Some (1000%nat, s1) /\ S2.t_ s1 = tmax).
Proof.
  split.
  - intros mat L tmax u0 f n s0 Htmax Hn Hmake.
    destruct (make1_fields _ _ _ _ _ _ _ Hmake)
      as (_ & _ & _ & Htm & _ & Hdt & _ & Ht & Hn0 & _).
    pose proof (run1_clock 1001 s0 ltac:(lia)) as Hrun.
    rewrite Ht, Hdt, Htm in Hrun. to_R.
    destruct (clock_exact (tmax / 1000) tmax 1000 0) as (t1 & Hc & Ht1);
      [lra|field|lia|simpl; ring|].
    rewrite Hc in Hrun. destruct Hrun as (s1 & Hr & Hts & _).
    exists s1. split; [exact Hr|congruence].
  - intros mat L tmax u0 f n s0 Htmax Hmake.
    destruct (make2_fields _ _ _ _ _ _ _ Hmake)
      as (_ & _ & _ & Htm & _ & Hdt & _ & Ht & Hn0 & _).
    pose proof (run2_clock 1001 s0) as Hrun.
    rewrite Ht, Hdt, Htm in Hrun. to_R.
    destruct (clock_exact (tmax / 1000) tmax 1000 0) as (t1 & Hc & Ht1);
      [lra|field|lia|simpl; ring|].
    rewrite Hc in Hrun. destruct Hrun as (s1 & Hr & Hts & _).
    exists s1. split; [exact Hr|congruence].
Qed.
End ExactProperties.

(** ** Properties read in both arithmetics, and the concrete scenarios *)

Section Scenarios.
Local Open Scope float_scope.

(** C5, as amended.  The direct solve of the system with sub-diagonal
    [[_, -1, -1]], diagonal [[2, 2, 2]], super-diagonal [[-1, -1, _]] and
    right-hand side [[1, 1, 1]] returns [[1.5, 2, 1.5]]: within 1e-9 in
    binary64, exactly in exact arithmetic, whatever stands in the two unused
    places and in the vector the solution is written to. *)
Theorem thomas_example_solution :
  (forall a0 c2 x0 x1 x2 : float,
     let x := S1.solve_tridiagonal [a0; -1; -1] [2; 2; 2] [-1; -1; c2]
                [1; 1; 1] [x0; x1; x2] in
     List.length x = 3%nat
     /\ near 1e-9 1.5 (vget x 0) = true
     /\ near 1e-9 2 (vget x 1) = true
     /\ near 1e-9 1.5 (vget x 2) = true)
  /\ (forall a0 c2 x0 x1 x2 : R,
        S1.solve_tridiagonal [a0; -1; -1] [2; 2; 2] [-1; -1; c2]
          [1; 1; 1] [x0; x1; x2]
        = [3 / 2; 2; 3 / 2])%R.
Proof.
  split.
  - intros a0 c2 x0 x1 x2. vm_compute. auto.
  - intros a0 c2 x0 x1 x2.
    cbv -[Rdiv Rmult Rminus Rplus Ropp IZR Rinv].
    f_equal; [field|f_equal; [field|f_equal; field]].
Qed.

(** C6 as stated fails: nothing fails at construction.  A solver with
    [n = 1], [L = -1], [tmax = 0] and [rho c = 0] is built, with a division
    by zero in [dx]; and one with [rho c = 0] on an otherwise proper grid is
    built and steps to a field of NaN.  The 2D constructor accepts the same,
    and a negative [n] as well. *)
Lemma invalid_configuration_is_accepted :
  (exists s0,
     S1.make {| name := "x"; lambda := 1; rho := 0; c := 0 |} (-1) 0 0 0 1%Z
     = Some s0
     /\ S1.dx_ s0 = neg_infinity)
  /\ (exists s0 s1,
        S1.make {| name := "x"; lambda := 389; rho := 0; c := 380 |} 1 1 0 0 5%Z
        = Some s0
        /\ S1.step s0 = Some (true, s1)
        /\ S1.u_ s1 = [nan; nan; nan; nan; nan])
  /\ (exists s0,
        S2.make {| name := "x"; lambda := 1; rho := 0; c := 0 |} (-1) 0 0 0 1%Z
        = Some s0
        /\ S2.dx_ s0 = neg_infinity)
  /\ (exists s0,
        S2.make Materials.COPPER 1 1 0 0 (-1)%Z = Some s0
        /\ S2.n_ s0 = (-1)%Z
        /\ S2.u_ s0 = [273.15]).
Proof.
  split; [|split; [|split]].
  - eexists. split; vm_compute; reflexivity.
  - eexists. eexists. split; [vm_compute; reflexivity|].
    split; vm_compute; reflexivity.
  - eexists. split; vm_compute; reflexivity.
  - eexists. split; [vm_compute; reflexivity|].
    split; vm_compute; reflexivity.
Qed.


(** C9.  The loops of [init_source] test the inclusive bounds on the rounded
    coordinate [i * dx_], and a grid point that lies on a bound of a region
    is lost when the product rounds past it.  On the bar with [L = 1] and 11
    points, point 6 lies at [6/10], the upper bound of the second band, but
    [6 * 0.1] is [0.6000000000000001]: the code gives it no source, whatever
    the material, [tmax], [u0] and [f], while point 5 has
    [0.75 tmax f^2 100].  With 6 points the second band holds no grid point
    at all, point 3 at [3/5] being lost in the same way.  On the plate with
    [L = 1] and 67 points per side, point [(22, 22)] lies at [(1/3, 1/3)],
    the corner of the first square, and has no source, while [(21, 21)] has
    [tmax f^2 100].  In real numbers the specification's inclusive regions
    give each of these points its source. *)
Theorem source_bound_point_dropped :
  (forall mat tmax u0 f (s0 : S1.state float),
     S1.make mat 1 tmax u0 f 11%Z = Some s0 ->
     vget (S1.F_ s0) 5 = 0.75 * tmax * f * f * 100
     /\ vget (S1.F_ s0) 6 = 0)
  /\ (forall mat tmax u0 f (s0 : S1.state float),
        S1.make mat 1 tmax u0 f 6%Z = Some s0 ->
        S1.F_ s0 = [0; tmax * f * f * 100; 0; 0; 0; 0])
  /\ (forall mat tmax u0 f (s0 : S2.state float),
        S2.make mat 1 tmax u0 f 67%Z = Some s0 ->
        vget (S2.F_ s0) (S2.idx s0 21 21) = tmax * f * f * 100
        /\ vget (S2.F_ s0) (S2.idx s0 22 22) = 0)
  /\ (forall tmax f : R,
        source_1d 1 tmax f (1 / IZR (11 - 1)) 6 = 0.75 * tmax * f * f * 100
        /\ source_1d 1 tmax f (1 / IZR (6 - 1)) 3 = 0.75 * tmax * f * f * 100
        /\ source_2d 1 tmax f (1 / IZR (67 - 1)) 22 22
           = tmax * f * f * 100)%R.
Proof.
  split; [|split; [|split]].
  - intros mat tmax u0 f s0 Hmake. unfold S1.make in Hmake.
    cbn [Z.ltb Z.compare] in Hmake. inversion Hmake as [E]. clear Hmake E.
    split; vm_compute; reflexivity.
  - intros mat tmax u0 f s0 Hmake. unfold S1.make in Hmake.
    cbn [Z.ltb Z.compare] in Hmake. inversion Hmake as [E]. clear Hmake E.
    vm_compute. reflexivity.
  - intros mat tmax u0 f s0 Hmake. unfold S2.make in Hmake.
    change ((67 <? - S2.max_n)%Z || (S2.max_n <? 67)%Z)%bool with false
      in Hmake.
    inversion Hmake as [E]. clear Hmake E.
    split; vm_compute; reflexivity.
  - intros tmax f. unfold source_1d, source_2d, in_band. to_R.
    change (@lit_0_75 R exact) with 0.75%R.
    change (11 - 1)%Z with 10%Z. change (6 - 1)%Z with 5%Z.
    change (67 - 1)%Z with 66%Z. unfold Rleb.
    repeat match goal with
           | |- context [Rle_dec ?a ?b] =>
               destruct (Rle_dec a b); [|try lra]; try lra
           end.
    cbn [andb orb]. auto.
Qed.
End Scenarios.

(** ** The theorems at concrete inputs *)

Section Witnesses.
Local Open Scope float_scope.


(** C3 on a solver built with [tmax = 0]. *)
Lemma step_past_horizon_noop_witness :
  exists s0,
    S1.make Materials.COPPER 1 0 13 80 5%Z = Some s0
    /\ S1.step s0 = Some (false, s0).
Proof.
  eexists. split; [vm_compute; reflexivity|].
  refine (proj1 (proj1 (@step_past_horizon_noop float binary64) _ _)).
  vm_compute. reflexivity.
Defined.

(** C6 at [n = -1] and at an invalid configuration with [n = 1]. *)
Lemma constructors_check_only_the_size_witness :
  S1.make Materials.COPPER 1 16 13 80 (-1)%Z = None
  /\ exists s0,
       S1.make Materials.COPPER (-1) 0 13 80 1%Z = Some s0
       /\ S1.dx_ s0 = -1 / 0.
Proof.
  split.
  - apply (proj1 (@constructors_check_only_the_size float binary64)
             Materials.COPPER 1 16 13 80 (-1)%Z). lia.
  - eexists. split; [vm_compute; reflexivity|].
    refine (proj1 (proj2 (proj2 (proj2
      (proj2 (proj1 (@constructors_check_only_the_size float binary64)
                Materials.COPPER (-1) 0 13 80 1%Z) _ _))))).
    vm_compute. reflexivity.
Defined.


(** C8 on the copper bar after one step. *)
Lemma reset_restores_fresh_state_witness :
  exists s0 s1,
    S1.make Materials.COPPER 1 16 13 80 5%Z = Some s0
    /\ S1.step s0 = Some (true, s1)
    /\ S1.reset s1 = s0.
Proof.
  eexists. eexists.
  split; [vm_compute; reflexivity|]. split; [vm_compute; reflexivity|].
  refine (proj1 (proj1 (@reset_restores_fresh_state float binary64)
                   Materials.COPPER 1 16 13 80 5%Z _ _ _ _)).
  - vm_compute. reflexivity.
  - eapply S1.steps_next; [apply S1.steps_refl|].
    vm_compute. reflexivity.
Defined.

(** C9 on the copper bar with 11 points, [L = 1], [tmax = 16], [u0 = 13],
    [f = 80]: point 5 has the source 7680000, point 6 has none. *)
Lemma source_bound_point_dropped_witness :
  exists s0,
    S1.make Materials.COPPER 1 16 13 80 11%Z = Some s0
    /\ vget (S1.F_ s0) 5 = 7680000
    /\ vget (S1.F_ s0) 6 = 0.
Proof.
  eexists. split; [reflexivity|].
  destruct (proj1 source_bound_point_dropped Materials.COPPER 16 13 80 _
              eq_refl) as [H5 H6].
  split; [rewrite H5; vm_compute; reflexivity|exact H6].
Defined.

(** C10 on the 3 x 3 copper plate, at [(i, j) = (1, 2)]. *)
Lemma point_accessor_agrees_with_view_witness :
  exists s0 view,
    S2.make Materials.COPPER 1 16 13 80 3%Z = Some s0
    /\ S2.get_temperature_2d s0 = Some view
    /\ S2.get_temperature s0 1 2 = vget (nth 2 view []) 1.
Proof.
  destruct (S2.make Materials.COPPER 1 16 13 80 3%Z) as [s0|] eqn:E;
    [|vm_compute in E; discriminate].
  destruct (make2_fields _ _ _ _ _ _ _ E)
    as (_ & _ & _ & _ & _ & _ & _ & _ & Hn & _).
  destruct (point_accessor_agrees_with_view s0 1%Z 2%Z
              ltac:(rewrite Hn; lia) ltac:(rewrite Hn; lia))
    as (view & Hv & Hval & _).
  exists s0, view. split; [reflexivity|]. split; [exact Hv|exact Hval].
Defined.
End Witnesses.

(** * Further properties of the solvers and of the application *)

(** ** More that holds in every arithmetic *)

Section MoreGenericProperties.
Context {D : Type} `{Double D}.
Local Open Scope dbl_scope.

(** X9.  Calls of [step()] change the field and the time only: after any
    number of them [get_n()] is the [n] of the constructor, the field has
    [n] entries ([n * n] in 2D), and the material, [L], [tmax], [dx], [dt],
    the reference temperature and the source field are those the
    constructor set. *)
Theorem step_keeps_configuration :
  (forall mat L tmax u0 f n (s0 s : S1.state D),
     S1.make mat L tmax u0 f n = Some s0 -> S1.steps s0 s ->
     S1.get_n s = n
     /\ List.length (S1.get_temperature s) = Z.to_nat n
     /\ S1.mat_ s = mat /\ S1.L_ s = L /\ S1.tmax_ s = tmax
     /\ S1.dx_ s = L / #(n - 1) /\ S1.dt_ s = tmax / #1000
     /\ S1.u0_kelvin_ s = u0 + KELVIN_OFFSET
     /\ S1.F_ s = S1.F_ s0)
  /\ (forall mat L tmax u0 f n (s0 s : S2.state D),
        S2.make mat L tmax u0 f n = Some s0 -> S2.steps s0 s ->
        S2.get_n s = n
        /\ List.length (S2.u_ s) = Z.to_nat (n * n)
        /\ S2.mat_ s = mat /\ S2.L_ s = L /\ S2.get_tmax s = tmax
        /\ S2.dx_ s = L / #(n - 1) /\ S2.dt_ s = tmax / #1000
        /\ S2.u0_kelvin_ s = u0 + KELVIN_OFFSET
        /\ S2.F_ s = S2.F_ s0).
Proof.
  split; intros mat L tmax u0 f n s0 s Hmake Hsteps.
  - destruct (make1_fields _ _ _ _ _ _ _ Hmake)
      as (Hn & Hmat & HL & Htmax & Hdx & Hdt & Hk & Ht & Hn0 & Hu).
    assert (Hl : List.length (S1.u_ s0) = Z.to_nat (S1.n_ s0))
      by (rewrite Hu, Hn0; apply length_vec).
    destruct (steps1_same_config s0 s Hl Hsteps)
      as (E1 & E2 & E3 & E4 & E5 & E6 & E7 & E8 & E9).
    unfold S1.get_n, S1.get_temperature.
    repeat split; congruence.
  - destruct (make2_fields _ _ _ _ _ _ _ Hmake)
      as (Hn & Hmat & HL & Htmax & Hdx & Hdt & Hk & Ht & Hn0 & Hu).
    assert (Hl : List.length (S2.u_ s0) = Z.to_nat (S2.n_ s0 * S2.n_ s0))
      by (rewrite Hu, Hn0; apply length_vec).
    destruct (steps2_same_config s0 s Hl Hsteps)
      as (E1 & E2 & E3 & E4 & E5 & E6 & E7 & E8 & E9).
    unfold S2.get_n, S2.get_tmax.
    repeat split; congruence.
Qed.

(** X8.  The number of successful steps of the driver's loop and the time
    it ends at are those of the clock of [tmax] alone, in every arithmetic:
    they do not depend on the material, [L], [u0], [f], [n] or the dimension,
    so that solvers built with one [tmax] finish on the same call. *)
Theorem step_count_depends_on_tmax_only fuel :
  (forall mat L tmax u0 f n (s0 : S1.state D),
     S1.make mat L tmax u0 f n = Some s0 -> (1 <= n)%Z ->
     option_map (fun ks => (fst ks, S1.get_time (snd ks))) (S1.run fuel s0)
     = clock fuel #0 (tmax / #1000) tmax)
  /\ (forall mat L tmax u0 f n (s0 : S2.state D),
        S2.make mat L tmax u0 f n = Some s0 ->
        option_map (fun ks => (fst ks, S2.get_time (snd ks))) (S2.run fuel s0)
        = clock fuel #0 (tmax / #1000) tmax).
Proof.
  split; intros mat L tmax u0 f n s0 Hmake.
  - intros Hn1.
    destruct (make1_fields _ _ _ _ _ _ _ Hmake)
      as (_ & _ & _ & Htmax & _ & Hdt & _ & Ht & Hn0 & _).
    pose proof (run1_clock fuel s0 ltac:(lia)) as Hrun.
    rewrite Ht, Hdt, Htmax in Hrun.
    destruct (clock fuel #0 (tmax / #1000) tmax) as [[k t1]|].
    + destruct Hrun as (s1 & -> & <- & _). reflexivity.
    + now rewrite Hrun.
  - destruct (make2_fields _ _ _ _ _ _ _ Hmake)
      as (_ & _ & _ & Htmax & _ & Hdt & _ & Ht & Hn0 & _).
    pose proof (run2_clock fuel s0) as Hrun.
    rewrite Ht, Hdt, Htmax in Hrun.
    destruct (clock fuel #0 (tmax / #1000) tmax) as [[k t1]|].
    + destruct Hrun as (s1 & -> & <- & _). reflexivity.
    + now rewrite Hrun.
Qed.

(** X10.  [get_temperature_2d()] returns [n] rows of [n] entries for
    [n >= 0], the empty view for [n = 0], and no view (the vector
    constructor throws) for a negative [n]. *)
Theorem view_is_square (s : S2.state D) :
  ((S2.n_ s < 0)%Z -> S2.get_temperature_2d s = None)
  /\ ((0 <= S2.n_ s)%Z ->
      exists view,
        S2.get_temperature_2d s = Some view
        /\ List.length view = Z.to_nat (S2.n_ s)
        /\ (forall row, In row view -> List.length row = Z.to_nat (S2.n_ s))
        /\ (S2.n_ s = 0%Z -> view = [])).
Proof.
  split.
  - intros Hn. unfold S2.get_temperature_2d.
    destruct (S2.n_ s <? 0)%Z eqn:E; [reflexivity|lia].
  - intros Hn.
    destruct (get_temperature_2d_rows s Hn) as (view & Hv & Hlen & Hrows & _).
    exists view. split; [exact Hv|]. split; [exact Hlen|]. split.
    + intros row Hin. destruct (In_nth _ _ [] Hin) as (k & Hk & <-).
      specialize (Hrows (Z.of_nat k) ltac:(lia)).
      now rewrite Nat2Z.id in Hrows.
    + intros E. rewrite E in Hlen. now destruct view.
Qed.
End MoreGenericProperties.

(** ** Edge cases in binary64 *)

Section OnePointGrid.
Local Open Scope float_scope.

Lemma one_entry {D : Type} `{Double D} (v : list D) (x : D) :
  List.length v = 1%nat -> vget v 0 = x -> v = [x].
Proof.
  intros Hl Hx. destruct v as [|y [|z v]]; try discriminate.
  unfold vget in Hx. simpl in Hx. now subst.
Qed.

(** X11.  A solver with a single grid point ([n = 1], where [dx] is
    [L / 0]) holds the reference temperature after every successful step:
    the 1D field is [[u0 + 273.15]] in binary64, whatever the other
    arguments, and so is the 2D field in every arithmetic. *)
Theorem one_point_grid_stays :
  (forall mat L tmax u0 f (s0 s s1 : S1.state float),
     S1.make mat L tmax u0 f 1 = Some s0 -> S1.steps s0 s ->
     S1.step s = Some (true, s1) ->
     S1.get_temperature s1 = [u0 + 273.15])
  /\ (forall (D : Type) (HD : Double D) mat L tmax u0 f (s0 s s1 : S2.state D),
        S2.make mat L tmax u0 f 1 = Some s0 -> S2.steps s0 s ->
        S2.step s = (true, s1) ->
        S2.u_ s1 = [(u0 + KELVIN_OFFSET)%dbl]).
Proof.
  split.
  - intros mat L tmax u0 f s0 s s1 Hmake Hsteps Hstep.
    destruct (make1_fields _ _ _ _ _ _ _ Hmake)
      as (Hn & _ & _ & _ & _ & _ & Hk & _ & Hn0 & Hu).
    assert (Hl : List.length (S1.u_ s0) = Z.to_nat (S1.n_ s0))
      by (rewrite Hu, Hn0; apply length_vec).
    destruct (steps1_same_config s0 s Hl Hsteps)
      as (_ & _ & _ & _ & _ & Hk' & Hn' & _).
    pose proof (dirichlet_pinned_1d s s1 Hstep) as Hpin.
    rewrite Hk', Hk, Hn', Hn0 in Hpin.
    destruct (step1_cases s s1 true Hstep)
      as [(Hb & _)|(_ & _ & _ & u & -> & Hlu)]; [discriminate|].
    rewrite Hn', Hn0 in Hlu. cbn [S1.set_u_t S1.u_] in Hpin.
    unfold S1.get_temperature. cbn [S1.set_u_t S1.u_].
    apply one_entry; [exact Hlu|].
    apply Hpin; [apply kelvin_not_negzero|lia].
  - intros D HD mat L tmax u0 f s0 s s1 Hmake Hsteps Hstep.
    destruct (make2_fields _ _ _ _ _ _ _ Hmake)
      as (Hn & _ & _ & _ & _ & _ & Hk & _ & Hn0 & Hu).
    assert (Hl : List.length (S2.u_ s0) = Z.to_nat (S2.n_ s0 * S2.n_ s0))
      by (rewrite Hu, Hn0; apply length_vec).
    destruct (steps2_same_config s0 s Hl Hsteps)
      as (_ & _ & _ & _ & _ & Hk' & Hn' & _ & Hl').
    assert (Hs0 : S2.same_config s0 s1).
    { apply (steps2_same_config s0 s1 Hl).
      econstructor; [exact Hsteps|exact Hstep]. }
    destruct Hs0 as (_ & _ & _ & _ & _ & _ & Hn1 & _ & Hl1).
    rewrite Hn0 in Hl1.
    apply one_entry; [exact Hl1|].
    rewrite <- Hk, <- Hk'.
    change (vget (S2.u_ s1) 0) with (vget (S2.u_ s1) (0 * S2.n_ s1 + 0)).
    fold (S2.idx s1 0 0). fold (S2.get_temperature s1 0 0).
    apply (dirichlet_pinned_2d s s1 0 0); rewrite ?Hn', ?Hn0; auto; lia.
Qed.
End OnePointGrid.

Section ClockStuck.
Context {D : Type} `{Double D}.
Local Open Scope dbl_scope.

(** A clock that does not advance below [tmax] never reaches it. *)
Lemma clock_stuck (t dt tmax : D) :
  (t >=? tmax) = false -> t + dt = t ->
  forall fuel, clock fuel t dt tmax = None.
Proof.
  intros Ht Hdt fuel. induction fuel as [|fuel IH]; [reflexivity|].
  simpl. now rewrite Ht, Hdt, IH.
Qed.
End ClockStuck.

Section NeverEndingClock.
Local Open Scope float_scope.

Lemma leb_nan_l (x : float) : (nan <=? x) = false.
Proof.
  rewrite leb_spec. change (Prim2SF nan) with S754_nan. reflexivity.
Qed.

Lemma clock_never_ends (tmax : float) :
  tmax = nan \/ ((tmax <=? 0) = false /\ tmax / 1000 = 0) ->
  forall fuel, clock fuel 0 (tmax / 1000) tmax = None.
Proof.
  intros [->|[Hpos Hdt]] fuel.
  - destruct fuel as [|fuel]; [reflexivity|].
    change (clock (S fuel) 0 (nan / 1000) nan)
      with (if (nan <=? 0) then Some (O, 0)
            else match clock fuel (0 + nan / 1000) (nan / 1000) nan with
                 | Some (k, t1) => Some (S k, t1)
                 | None => None
                 end).
    rewrite leb_nan_l.
    change (0 + nan / 1000) with nan.
    rewrite (clock_stuck nan (nan / 1000) nan); [reflexivity| |reflexivity].
    apply leb_nan_l.
  - rewrite Hdt. apply (clock_stuck 0 0 tmax); [exact Hpos|reflexivity].
Qed.

(** X12.  In binary64, with [tmax] NaN, or with [tmax > 0] so small that
    [tmax / 1000] rounds to zero, [step()] never returns false: the driver's
    loop does not end, whatever number of calls it is given. *)
Theorem driver_never_finishes (tmax : float) :
  tmax = nan \/ ((tmax <=? 0) = false /\ tmax / 1000 = 0) ->
  (forall fuel mat L u0 f n (s0 : S1.state float),
     S1.make mat L tmax u0 f n = Some s0 -> (1 <= n)%Z ->
     S1.run fuel s0 = None)
  /\ (forall fuel mat L u0 f n (s0 : S2.state float),
        S2.make mat L tmax u0 f n = Some s0 -> S2.run fuel s0 = None).
Proof.
  intros Htmax. split; intros fuel mat L u0 f n s0 Hmake.
  - intros Hn.
    destruct (make1_fields _ _ _ _ _ _ _ Hmake)
      as (_ & _ & _ & Htm & _ & Hdt & _ & Ht & Hn0 & _).
    pose proof (run1_clock fuel s0 ltac:(lia)) as Hrun.
    rewrite Ht, Hdt, Htm in Hrun.
    change (clock fuel _ _ _) with (clock fuel 0 (tmax / 1000) tmax) in Hrun.
    now rewrite clock_never_ends in Hrun.
  - destruct (make2_fields _ _ _ _ _ _ _ Hmake)
      as (_ & _ & _ & Htm & _ & Hdt & _ & Ht & Hn0 & _).
    pose proof (run2_clock fuel s0) as Hrun.
    rewrite Ht, Hdt, Htm in Hrun.
    change (clock fuel _ _ _) with (clock fuel 0 (tmax / 1000) tmax) in Hrun.
    now rewrite clock_never_ends in Hrun.
Qed.

End NeverEndingClock.

(** ** The application *)

Module App := SDLApp.

Section SolversOnTheClock.
Context {D : Type} `{Double D}.
Local Open Scope dbl_scope.

(** [reset()] of a state a constructed solver has reached is the state the
    constructor built. *)
Lemma reset1_fresh mat L tmax u0 f n (s0 s : S1.state D) :
  S1.make mat L tmax u0 f n = Some s0 -> S1.steps s0 s -> S1.reset s = s0.
Proof.
  intros Hmake Hsteps.
  destruct (make1_fields _ _ _ _ _ _ _ Hmake)
    as (Hn & _ & _ & _ & _ & _ & Hk & Ht & Hn0 & Hu).
  assert (Hl : List.length (S1.u_ s0) = Z.to_nat (S1.n_ s0))
    by (rewrite Hu, Hn0; apply length_vec).
  destruct (steps1_same_config s0 s Hl Hsteps)
    as (E1 & E2 & E3 & E4 & E5 & E6 & E7 & E8 & E9).
  unfold S1.reset, S1.set_u_t.
  rewrite (map_const_vec (S1.u_ s) (S1.n_ s0)) by exact E9.
  rewrite E1, E2, E3, E4, E5, E6, E7, E8.
  destruct s0; simpl in *. subst. reflexivity.
Qed.

Lemma reset2_fresh mat L tmax u0 f n (s0 s : S2.state D) :
  S2.make mat L tmax u0 f n = Some s0 -> S2.steps s0 s -> S2.reset s = s0.
Proof.
  intros Hmake Hsteps.
  destruct (make2_fields _ _ _ _ _ _ _ Hmake)
    as (Hn & _ & _ & _ & _ & _ & Hk & Ht & Hn0 & Hu).
  assert (Hl : List.length (S2.u_ s0) = Z.to_nat (S2.n_ s0 * S2.n_ s0))
    by (rewrite Hu, Hn0; apply length_vec).
  destruct (steps2_same_config s0 s Hl Hsteps)
    as (E1 & E2 & E3 & E4 & E5 & E6 & E7 & E8 & E9).
  unfold S2.reset, S2.set_u_t.
  rewrite (map_const_vec (S2.u_ s) (S2.n_ s0 * S2.n_ s0)) by exact E9.
  rewrite E1, E2, E3, E4, E5, E6, E7, E8.
  destruct s0; simpl in *. subst. reflexivity.
Qed.

Lemma on_clock1_start mat L tmax u0 f n (s0 : S1.state D) :
  S1.make mat L tmax u0 f n = Some s0 -> on_clock1 mat L tmax u0 f n s0 #0.
Proof.
  intros Hmake. exists s0. split; [exact Hmake|]. split; [constructor|].
  now destruct (make1_fields _ _ _ _ _ _ _ Hmake)
    as (_ & _ & _ & _ & _ & _ & _ & Ht & _).
Qed.

Lemma on_clock2_start mat L tmax u0 f n (s0 : S2.state D) :
  S2.make mat L tmax u0 f n = Some s0 -> on_clock2 mat L tmax u0 f n s0 #0.
Proof.
  intros Hmake. exists s0. split; [exact Hmake|]. split; [constructor|].
  now destruct (make2_fields _ _ _ _ _ _ _ Hmake)
    as (_ & _ & _ & _ & _ & _ & _ & Ht & _).
Qed.

(** What [step()] does is decided by the time alone. *)
Lemma step1_on_clock mat L tmax u0 f n (s : S1.state D) t :
  (1 <= n)%Z -> on_clock1 mat L tmax u0 f n s t ->
  if t >=? tmax then S1.step s = Some (false, s)
  else exists s1, S1.step s = Some (true, s1)
                  /\ on_clock1 mat L tmax u0 f n s1 (t + tmax / #1000).
Proof.
  intros Hn (s0 & Hmake & Hsteps & Ht).
  destruct (make1_fields _ _ _ _ _ _ _ Hmake)
    as (_ & _ & _ & Htm & _ & Hdt & _ & _ & Hn0 & Hu).
  assert (Hl : List.length (S1.u_ s0) = Z.to_nat (S1.n_ s0))
    by (rewrite Hu, Hn0; apply length_vec).
  destruct (steps1_same_config s0 s Hl Hsteps)
    as (_ & _ & E3 & _ & E5 & _ & E7 & _).
  destruct (t >=? tmax) eqn:E.
  - apply step1_false. now rewrite Ht, E3, Htm.
  - destruct (step1_true s) as (u & Hstep & _).
    + now rewrite Ht, E3, Htm.
    + lia.
    + eexists. split; [exact Hstep|]. exists s0. split; [exact Hmake|].
      split; [econstructor; [exact Hsteps|exact Hstep]|].
      cbn [S1.set_u_t S1.t_]. now rewrite Ht, E5, Hdt.
Qed.

Lemma step2_on_clock mat L tmax u0 f n (s : S2.state D) t :
  on_clock2 mat L tmax u0 f n s t ->
  if t >=? tmax then S2.step s = (false, s)
  else exists s1, S2.step s = (true, s1)
                  /\ on_clock2 mat L tmax u0 f n s1 (t + tmax / #1000).
Proof.
  intros (s0 & Hmake & Hsteps & Ht).
  destruct (make2_fields _ _ _ _ _ _ _ Hmake)
    as (_ & _ & _ & Htm & _ & Hdt & _ & _ & Hn0 & Hu).
  assert (Hl : List.length (S2.u_ s0) = Z.to_nat (S2.n_ s0 * S2.n_ s0))
    by (rewrite Hu, Hn0; apply length_vec).
  destruct (steps2_same_config s0 s Hl Hsteps)
    as (_ & _ & E3 & _ & E5 & _ & E7 & _).
  destruct (t >=? tmax) eqn:E.
  - apply step2_false. now rewrite Ht, E3, Htm.
  - assert (Hstep := step2_true s ltac:(now rewrite Ht, E3, Htm)).
    eexists. split; [exact Hstep|]. exists s0. split; [exact Hmake|].
    split; [econstructor; [exact Hsteps|exact Hstep]|].
    cbn [S2.set_u_t S2.t_]. now rewrite Ht, E5, Hdt.
Qed.

Lemma reset1_on_clock mat L tmax u0 f n (s : S1.state D) t :
  on_clock1 mat L tmax u0 f n s t ->
  on_clock1 mat L tmax u0 f n (S1.reset s) #0
  /\ S1.make mat L tmax u0 f n = Some (S1.reset s).
Proof.
  intros (s0 & Hmake & Hsteps & _).
  rewrite (reset1_fresh _ _ _ _ _ _ _ _ Hmake Hsteps).
  split; [now apply on_clock1_start|exact Hmake].
Qed.

Lemma reset2_on_clock mat L tmax u0 f n (s : S2.state D) t :
  on_clock2 mat L tmax u0 f n s t ->
  on_clock2 mat L tmax u0 f n (S2.reset s) #0
  /\ S2.make mat L tmax u0 f n = Some (S2.reset s).
Proof.
  intros (s0 & Hmake & Hsteps & _).
  rewrite (reset2_fresh _ _ _ _ _ _ _ _ Hmake Hsteps).
  split; [now apply on_clock2_start|exact Hmake].
Qed.

Lemma make1_some mat L tmax u0 f n :
  (0 <= n)%Z -> exists s0 : S1.state D, S1.make mat L tmax u0 f n = Some s0.
Proof.
  intros Hn. unfold S1.make. destruct (n <? 0)%Z eqn:E; [lia|]. eauto.
Qed.

Lemma make2_some mat L tmax u0 f n :
  (- S2.max_n <= n <= S2.max_n)%Z ->
  exists s0 : S2.state D, S2.make mat L tmax u0 f n = Some s0.
Proof.
  intros Hn. unfold S2.make.
  destruct (n <? - S2.max_n)%Z eqn:E1; [lia|].
  destruct (S2.max_n <? n)%Z eqn:E2; [lia|]. cbn [orb]. eauto.
Qed.
End SolversOnTheClock.

(** Evaluates a term of the application's own code and leaves the solvers'
    code alone. *)
Ltac app_eval t :=
  let y := eval cbv -[S1.make S2.make S1.step S2.step S1.reset S2.reset
                      binary64 Materials.COPPER Materials.IRON Materials.GLASS
                      Materials.POLYSTYRENE App.speed_loop] in t in
  change t with y.

Ltac app_fields :=
  cbn [App.solver_1d_ App.solver_2d_ App.sim_type_ App.material_ App.L_ App.tmax_ App.u0_
       App.f_ App.n_ App.paused_ App.speed_ App.running_ App.grid_mode_ App.solvers_1d_
       App.solvers_2d_ App.materials_
       App.set_solver_1d App.set_solver_2d App.set_n App.set_paused App.set_speed
       App.set_running App.set_solvers_1d App.set_solvers_2d] in *.

Section AppFacts.
Variables (L tmax u0 f : float).

(** The grid constructor succeeds and builds the four solvers of the type. *)
Lemma make_grid_spec (type : App.SimType) :
  exists a0, App.make_grid type L tmax u0 f = Some a0
    /\ grid_inv type L tmax u0 f 0%float a0
    /\ App.paused_ a0 = false /\ App.running_ a0 = true /\ App.speed_ a0 = 1%Z
    /\ match type with
       | App.BAR_1D =>
           App.solvers_1d_ a0
           = map (fun m => S1.make m L tmax u0 f 1001)
               [Materials.COPPER; Materials.IRON; Materials.GLASS;
                Materials.POLYSTYRENE]
           /\ App.solvers_2d_ a0 = [None; None; None; None]
       | App.PLATE_2D =>
           App.solvers_2d_ a0
           = map (fun m => S2.make m L tmax u0 f 101)
               [Materials.COPPER; Materials.IRON; Materials.GLASS;
                Materials.POLYSTYRENE]
           /\ App.solvers_1d_ a0 = [None; None; None; None]
       end.
Proof.
  destruct type.
  - destruct (make1_some Materials.COPPER L tmax u0 f 1001 ltac:(lia))
      as (p1 & E1).
    destruct (make1_some Materials.IRON L tmax u0 f 1001 ltac:(lia))
      as (p2 & E2).
    destruct (make1_some Materials.GLASS L tmax u0 f 1001 ltac:(lia))
      as (p3 & E3).
    destruct (make1_some Materials.POLYSTYRENE L tmax u0 f 1001 ltac:(lia))
      as (p4 & E4).
    app_eval (App.make_grid App.BAR_1D L tmax u0 f). rewrite E1, E2, E3, E4.
    eexists. split; [reflexivity|]. unfold grid_inv. app_fields.
    split;
      [|repeat split; try reflexivity; cbn [map];
        now rewrite E1, E2, E3, E4].
    split; [reflexivity|]. split; [reflexivity|]. split; [unfold speed_cap; lia|].
    split; [reflexivity|].
    exists p1, p2, p3, p4.
    split; [reflexivity|].
    repeat split;
      [exact (on_clock1_start _ _ _ _ _ _ _ E1)
      |exact (on_clock1_start _ _ _ _ _ _ _ E2)
      |exact (on_clock1_start _ _ _ _ _ _ _ E3)
      |exact (on_clock1_start _ _ _ _ _ _ _ E4)].
  - destruct (make2_some Materials.COPPER L tmax u0 f 101
                ltac:(unfold S2.max_n; lia)) as (p1 & E1).
    destruct (make2_some Materials.IRON L tmax u0 f 101
                ltac:(unfold S2.max_n; lia)) as (p2 & E2).
    destruct (make2_some Materials.GLASS L tmax u0 f 101
                ltac:(unfold S2.max_n; lia)) as (p3 & E3).
    destruct (make2_some Materials.POLYSTYRENE L tmax u0 f 101
                ltac:(unfold S2.max_n; lia)) as (p4 & E4).
    app_eval (App.make_grid App.PLATE_2D L tmax u0 f). rewrite E1, E2, E3, E4.
    eexists. split; [reflexivity|]. unfold grid_inv. app_fields.
    split;
      [|repeat split; try reflexivity; cbn [map];
        now rewrite E1, E2, E3, E4].
    split; [reflexivity|]. split; [reflexivity|]. split; [unfold speed_cap; lia|].
    split; [reflexivity|].
    exists p1, p2, p3, p4.
    split; [reflexivity|].
    repeat split;
      [exact (on_clock2_start _ _ _ _ _ _ _ E1)
      |exact (on_clock2_start _ _ _ _ _ _ _ E2)
      |exact (on_clock2_start _ _ _ _ _ _ _ E3)
      |exact (on_clock2_start _ _ _ _ _ _ _ E4)].
Qed.

(** An event keeps the invariant; the key R brings the clock back to 0. *)
Lemma process_events_inv type t (a : App.app) (e : App.Event) :
  grid_inv type L tmax u0 f t a ->
  exists t1, grid_inv type L tmax u0 f t1 (App.process_events a e).
Proof.
  intros (Hty & Hg & Hsp & Hsolv).
  destruct a as [o1 o2 ty mat0 L0 tm0 u00 f0 n0 pa sp ru gm l1 l2 ms].
  app_fields. subst ty gm.
  destruct e as [| |[| | | | |]|];
    try (exists t; exact (conj eq_refl (conj eq_refl (conj Hsp Hsolv)))).
  - (* R *)
    exists 0%float. destruct type.
    + destruct Hsolv as (-> & s1 & s2 & s3 & s4 & -> & H1 & H2 & H3 & H4).
      match goal with |- grid_inv _ _ _ _ _ _ ?x => app_eval x end.
      unfold grid_inv. app_fields.
      split; [reflexivity|]. split; [reflexivity|]. split; [exact Hsp|].
      split; [reflexivity|].
      exists (S1.reset s1), (S1.reset s2), (S1.reset s3), (S1.reset s4).
      split; [reflexivity|].
      repeat split;
        [exact (proj1 (reset1_on_clock _ _ _ _ _ _ _ _ H1))
        |exact (proj1 (reset1_on_clock _ _ _ _ _ _ _ _ H2))
        |exact (proj1 (reset1_on_clock _ _ _ _ _ _ _ _ H3))
        |exact (proj1 (reset1_on_clock _ _ _ _ _ _ _ _ H4))].
    + destruct Hsolv as (-> & s1 & s2 & s3 & s4 & -> & H1 & H2 & H3 & H4).
      match goal with |- grid_inv _ _ _ _ _ _ ?x => app_eval x end.
      unfold grid_inv. app_fields.
      split; [reflexivity|]. split; [reflexivity|]. split; [exact Hsp|].
      split; [reflexivity|].
      exists (S2.reset s1), (S2.reset s2), (S2.reset s3), (S2.reset s4).
      split; [reflexivity|].
      repeat split;
        [exact (proj1 (reset2_on_clock _ _ _ _ _ _ _ _ H1))
        |exact (proj1 (reset2_on_clock _ _ _ _ _ _ _ _ H2))
        |exact (proj1 (reset2_on_clock _ _ _ _ _ _ _ _ H3))
        |exact (proj1 (reset2_on_clock _ _ _ _ _ _ _ _ H4))].
  - (* UP *)
    exists t. unfold grid_inv. app_fields.
    unfold App.process_events. app_fields.
    split; [reflexivity|]. split; [reflexivity|].
    split; [destruct type; unfold speed_cap in *; lia|exact Hsolv].
  - (* DOWN *)
    exists t. unfold grid_inv. unfold App.process_events. app_fields.
    split; [reflexivity|]. split; [reflexivity|].
    split; [destruct type; unfold speed_cap in *; lia|exact Hsolv].
Qed.

(** One pass over the four solvers: when the time is up nothing changes and
    [all_done] stays true; otherwise all four advance by [dt]. *)
Lemma step_all_inv type t (a : App.app) :
  grid_inv type L tmax u0 f t a ->
  if PrimFloat.leb tmax t
  then App.step_all a = Some (a, true)
  else exists a1, App.step_all a = Some (a1, false)
         /\ grid_inv type L tmax u0 f (t + tmax / 1000)%float a1
         /\ App.paused_ a1 = App.paused_ a /\ App.running_ a1 = App.running_ a.
Proof.
  intros (Hty & Hg & Hsp & Hsolv).
  destruct a as [o1 o2 ty mat0 L0 tm0 u00 f0 n0 pa sp ru gm l1 l2 ms].
  app_fields. subst ty gm.
  destruct type.
  - destruct Hsolv as (-> & s1 & s2 & s3 & s4 & -> & H1 & H2 & H3 & H4).
    pose proof (step1_on_clock _ _ _ _ _ 1001%Z _ _ ltac:(lia) H1) as K1.
    pose proof (step1_on_clock _ _ _ _ _ 1001%Z _ _ ltac:(lia) H2) as K2.
    pose proof (step1_on_clock _ _ _ _ _ 1001%Z _ _ ltac:(lia) H3) as K3.
    pose proof (step1_on_clock _ _ _ _ _ 1001%Z _ _ ltac:(lia) H4) as K4.
    change (@dleb float binary64 tmax t) with (PrimFloat.leb tmax t) in *.
    match goal with |- context [App.step_all ?x] => app_eval (App.step_all x) end.
    destruct (PrimFloat.leb tmax t).
    + rewrite K1. cbv beta iota. rewrite K2. cbv beta iota.
      rewrite K3. cbv beta iota. rewrite K4. reflexivity.
    + destruct K1 as (r1 & -> & G1). cbv beta iota.
      destruct K2 as (r2 & -> & G2). cbv beta iota.
      destruct K3 as (r3 & -> & G3). cbv beta iota.
      destruct K4 as (r4 & -> & G4). cbv beta iota.
      eexists. split; [reflexivity|]. unfold grid_inv. app_fields.
      split; [|split; reflexivity].
      split; [reflexivity|]. split; [reflexivity|]. split; [exact Hsp|].
      split; [reflexivity|]. exists r1, r2, r3, r4.
      split; [reflexivity|]. repeat split; assumption.
  - destruct Hsolv as (-> & s1 & s2 & s3 & s4 & -> & H1 & H2 & H3 & H4).
    pose proof (step2_on_clock _ _ _ _ _ _ _ _ H1) as K1.
    pose proof (step2_on_clock _ _ _ _ _ _ _ _ H2) as K2.
    pose proof (step2_on_clock _ _ _ _ _ _ _ _ H3) as K3.
    pose proof (step2_on_clock _ _ _ _ _ _ _ _ H4) as K4.
    change (@dleb float binary64 tmax t) with (PrimFloat.leb tmax t) in *.
    match goal with |- context [App.step_all ?x] => app_eval (App.step_all x) end.
    destruct (PrimFloat.leb tmax t).
    + rewrite K1. cbv beta iota. rewrite K2. cbv beta iota.
      rewrite K3. cbv beta iota. rewrite K4. reflexivity.
    + destruct K1 as (r1 & -> & G1). cbv beta iota.
      destruct K2 as (r2 & -> & G2). cbv beta iota.
      destruct K3 as (r3 & -> & G3). cbv beta iota.
      destruct K4 as (r4 & -> & G4). cbv beta iota.
      eexists. split; [reflexivity|]. unfold grid_inv. app_fields.
      split; [|split; reflexivity].
      split; [reflexivity|]. split; [reflexivity|]. split; [exact Hsp|].
      split; [reflexivity|]. exists r1, r2, r3, r4.
      split; [reflexivity|]. repeat split; assumption.
Qed.

Lemma set_paused_inv type t (a : App.app) b :
  grid_inv type L tmax u0 f t a ->
  grid_inv type L tmax u0 f t (App.set_paused a b).
Proof. intros H. exact H. Qed.

Lemma set_running_inv type t (a : App.app) b :
  grid_inv type L tmax u0 f t a ->
  grid_inv type L tmax u0 f t (App.set_running a b).
Proof. intros H. exact H. Qed.

(** The passes of one frame: the invariant holds after them, and the
    application is paused by them only when the time is up. *)
Lemma speed_loop_inv type k : forall t (a : App.app),
  grid_inv type L tmax u0 f t a ->
  exists a1 t1, App.speed_loop k a = Some a1
    /\ grid_inv type L tmax u0 f t1 a1
    /\ App.running_ a1 = App.running_ a
    /\ (App.paused_ a1 = App.paused_ a
        \/ (App.paused_ a1 = true /\ PrimFloat.leb tmax t1 = true)).
Proof.
  induction k as [|k IH]; intros t a Ha.
  - exists a, t. simpl. auto.
  - pose proof (step_all_inv type t a Ha) as Hs.
    destruct Ha as (Hty & Hg & Hrest).
    simpl App.speed_loop. rewrite Hg.
    destruct (PrimFloat.leb tmax t) eqn:Et.
    + rewrite Hs. exists (App.set_paused a true), t.
      split; [reflexivity|]. split; [exact (conj Hty (conj Hg Hrest))|].
      split; [reflexivity|]. right. auto.
    + destruct Hs as (a1 & -> & Ha1 & Hp & Hr).
      destruct (IH _ a1 Ha1) as (a2 & t2 & -> & Ha2 & Hr2 & Hp2).
      exists a2, t2. split; [reflexivity|]. split; [exact Ha2|].
      split; [congruence|]. rewrite <- Hp. exact Hp2.
Qed.

Lemma events_inv type (events : list App.Event) : forall t (a : App.app),
  grid_inv type L tmax u0 f t a ->
  exists t1,
    grid_inv type L tmax u0 f t1
      (fold_left (fun a event =>
         let a :=
           match event with
           | App.SDL_QUIT | App.SDL_WINDOWEVENT_CLOSE => App.set_running a false
           | _ => a
           end in
         App.process_events a event) events a).
Proof.
  induction events as [|e events IH]; intros t a Ha; [now exists t|].
  simpl fold_left.
  assert (Hq : grid_inv type L tmax u0 f t
                 match e with
                 | App.SDL_QUIT | App.SDL_WINDOWEVENT_CLOSE => App.set_running a false
                 | _ => a
                 end) by (destruct e; exact Ha).
  destruct (process_events_inv type t _ e Hq) as (t1 & H1).
  exact (IH t1 _ H1).
Qed.

Lemma frame_inv type (events : list App.Event) t (a : App.app) :
  grid_inv type L tmax u0 f t a ->
  exists a1 t1, App.frame events a = Some a1 /\ grid_inv type L tmax u0 f t1 a1.
Proof.
  intros Ha. unfold App.frame.
  destruct (events_inv type events t a Ha) as (t1 & H1).
  set (b := fold_left _ events a) in *.
  destruct (negb (App.running_ b)); [now exists b, t1|].
  destruct (negb (App.paused_ b)); [|now exists b, t1].
  destruct (speed_loop_inv type (Z.to_nat (App.speed_ b)) t1 b H1)
    as (a2 & t2 & E & H2 & _).
  now exists a2, t2.
Qed.

Lemma run_inv type (frames : list (list App.Event)) : forall t (a : App.app),
  grid_inv type L tmax u0 f t a ->
  exists a1 t1, App.run frames a = Some a1 /\ grid_inv type L tmax u0 f t1 a1.
Proof.
  induction frames as [|events frames IH]; intros t a Ha;
    [now exists a, t|].
  simpl App.run. destruct (App.running_ a); [|now exists a, t].
  destruct (frame_inv type events t a Ha) as (a1 & t1 & -> & H1).
  exact (IH t1 a1 H1).
Qed.
End AppFacts.

(** X13.  The solver calls of the grid application never fail.  Whatever
    the parameters, the constructor builds the four solvers of the chosen
    kind, one per material, with 1001 points for the bar and 101 x 101 for
    the plate: no constructor of a solver throws.  Whatever the events, in
    every pass of [run()] the calls of [step()] and [reset()] are made on
    these four solvers and are defined, and the four solvers are still
    there after the pass.  What the drawing of a pass does with the fields
    is not part of this statement. *)
Theorem app_solver_calls_are_defined (type : App.SimType)
    (L tmax u0 f : float) :
  exists a0,
    App.make_grid type L tmax u0 f = Some a0
    /\ match type with
       | App.BAR_1D =>
           App.solvers_1d_ a0
           = map (fun m => S1.make m L tmax u0 f 1001)
               [Materials.COPPER; Materials.IRON; Materials.GLASS;
                Materials.POLYSTYRENE]
       | App.PLATE_2D =>
           App.solvers_2d_ a0
           = map (fun m => S2.make m L tmax u0 f 101)
               [Materials.COPPER; Materials.IRON; Materials.GLASS;
                Materials.POLYSTYRENE]
       end
    /\ forall frames : list (list App.Event),
         exists a,
           App.run frames a0 = Some a
           /\ match type with
              | App.BAR_1D =>
                  exists s1 s2 s3 s4,
                    App.solvers_1d_ a = [Some s1; Some s2; Some s3; Some s4]
              | App.PLATE_2D =>
                  exists s1 s2 s3 s4,
                    App.solvers_2d_ a = [Some s1; Some s2; Some s3; Some s4]
              end.
Proof.
  destruct (make_grid_spec L tmax u0 f type)
    as (a0 & E & H0 & _ & _ & _ & Hs).
  exists a0. split; [exact E|]. split.
  - destruct type; apply Hs.
  - intros frames.
    destruct (run_inv L tmax u0 f type frames _ a0 H0) as (a & t & Er & Ha).
    exists a. split; [exact Er|].
    destruct Ha as (_ & _ & _ & Hsolv).
    destruct type.
    + destruct Hsolv as (_ & s1 & s2 & s3 & s4 & Es & _).
      now exists s1, s2, s3, s4.
    + destruct Hsolv as (_ & s1 & s2 & s3 & s4 & Es & _).
      now exists s1, s2, s3, s4.
Qed.

(** X14.  The speed of the grid application stays between 1 and 50 for
    the bar, 20 for the plate, whatever keys are pressed. *)
Theorem app_speed_in_range (type : App.SimType) (L tmax u0 f : float)
    (frames : list (list App.Event)) (a0 a : App.app) :
  App.make_grid type L tmax u0 f = Some a0 -> App.run frames a0 = Some a ->
  (1 <= App.speed_ a
   <= match type with App.BAR_1D => 50 | App.PLATE_2D => 20 end)%Z.
Proof.
  intros E Er.
  destruct (make_grid_spec L tmax u0 f type) as (a0' & E' & H0 & _).
  rewrite E in E'. inversion E'. subst a0'.
  destruct (run_inv L tmax u0 f type frames _ a0 H0) as (a' & t & Er' & H).
  rewrite Er in Er'. inversion Er'. subst a'.
  destruct H as (_ & _ & Hsp & _). exact Hsp.
Qed.

(** X15.  In every state the grid application reaches, the key R puts the
    four solvers back into the states the constructors built, and clears
    the pause. *)
Theorem reset_key_restores_start (type : App.SimType) (L tmax u0 f : float)
    (frames : list (list App.Event)) (a0 a : App.app) :
  App.make_grid type L tmax u0 f = Some a0 -> App.run frames a0 = Some a ->
  let a1 := App.process_events a (App.SDL_KEYDOWN App.SDLK_r) in
  App.solvers_1d_ a1 = App.solvers_1d_ a0
  /\ App.solvers_2d_ a1 = App.solvers_2d_ a0
  /\ App.paused_ a1 = false.
Proof.
  intros E Er.
  destruct (make_grid_spec L tmax u0 f type)
    as (a0' & E' & H0 & _ & _ & _ & Hs0).
  rewrite E in E'. inversion E'. subst a0'.
  destruct (run_inv L tmax u0 f type frames _ a0 H0) as (a' & t & Er' & H).
  rewrite Er in Er'. inversion Er'. subst a'. clear E' Er'.
  destruct H as (Hty & Hg & Hsp & Hsolv).
  destruct a as [o1 o2 ty mat0 L0 tm0 u00 f0 n0 pa sp ru gm l1 l2 ms].
  app_fields. subst ty gm.
  destruct type.
  - destruct Hsolv as (-> & s1 & s2 & s3 & s4 & -> & H1 & H2 & H3 & H4).
    destruct Hs0 as (-> & ->).
    match goal with |- context [App.process_events ?x ?e] =>
      app_eval (App.process_events x e) end.
    cbv zeta. app_fields. cbn [map].
    rewrite (proj2 (reset1_on_clock _ _ _ _ _ _ _ _ H1)).
    rewrite (proj2 (reset1_on_clock _ _ _ _ _ _ _ _ H2)).
    rewrite (proj2 (reset1_on_clock _ _ _ _ _ _ _ _ H3)).
    rewrite (proj2 (reset1_on_clock _ _ _ _ _ _ _ _ H4)).
    auto.
  - destruct Hsolv as (-> & s1 & s2 & s3 & s4 & -> & H1 & H2 & H3 & H4).
    destruct Hs0 as (-> & ->).
    match goal with |- context [App.process_events ?x ?e] =>
      app_eval (App.process_events x e) end.
    cbv zeta. app_fields. cbn [map].
    rewrite (proj2 (reset2_on_clock _ _ _ _ _ _ _ _ H1)).
    rewrite (proj2 (reset2_on_clock _ _ _ _ _ _ _ _ H2)).
    rewrite (proj2 (reset2_on_clock _ _ _ _ _ _ _ _ H3)).
    rewrite (proj2 (reset2_on_clock _ _ _ _ _ _ _ _ H4)).
    auto.
Qed.

(** X16.  In every state the grid application reaches, its four solvers
    are at the same simulation time. *)
Theorem grid_solvers_share_the_clock (type : App.SimType) (L tmax u0 f : float)
    (frames : list (list App.Event)) (a0 a : App.app) :
  App.make_grid type L tmax u0 f = Some a0 -> App.run frames a0 = Some a ->
  exists t,
    match type with
    | App.BAR_1D =>
        map (option_map S1.get_time) (App.solvers_1d_ a)
        = [Some t; Some t; Some t; Some t]
    | App.PLATE_2D =>
        map (option_map S2.get_time) (App.solvers_2d_ a)
        = [Some t; Some t; Some t; Some t]
    end.
Proof.
  intros E Er.
  destruct (make_grid_spec L tmax u0 f type) as (a0' & E' & H0 & _).
  rewrite E in E'. inversion E'. subst a0'.
  destruct (run_inv L tmax u0 f type frames _ a0 H0) as (a' & t & Er' & H).
  rewrite Er in Er'. inversion Er'. subst a'. clear E' Er'.
  destruct H as (Hty & Hg & Hsp & Hsolv). exists t.
  destruct type.
  - destruct Hsolv as (_ & s1 & s2 & s3 & s4 & -> & (? & _ & _ & <-)
                       & (? & _ & _ & E2) & (? & _ & _ & E3)
                       & (? & _ & _ & E4)).
    cbn [map option_map]. unfold S1.get_time. now rewrite E2, E3, E4.
  - destruct Hsolv as (_ & s1 & s2 & s3 & s4 & -> & (? & _ & _ & <-)
                       & (? & _ & _ & E2) & (? & _ & _ & E3)
                       & (? & _ & _ & E4)).
    cbn [map option_map]. unfold S2.get_time. now rewrite E2, E3, E4.
Qed.

(** X17.  When the passes of a frame pause the grid application, the
    common time [t] of its four solvers satisfies [t >= tmax]: it pauses
    itself only when all four simulations are over. *)
Theorem grid_pauses_when_done (type : App.SimType) (L tmax u0 f : float)
    (frames : list (list App.Event)) (a0 a a1 : App.app) (k : nat) :
  App.make_grid type L tmax u0 f = Some a0 -> App.run frames a0 = Some a ->
  App.paused_ a = false -> App.speed_loop k a = Some a1 ->
  App.paused_ a1 = true ->
  exists t,
    PrimFloat.leb tmax t = true
    /\ match type with
       | App.BAR_1D =>
           map (option_map S1.get_time) (App.solvers_1d_ a1)
           = [Some t; Some t; Some t; Some t]
       | App.PLATE_2D =>
           map (option_map S2.get_time) (App.solvers_2d_ a1)
           = [Some t; Some t; Some t; Some t]
       end.
Proof.
  intros E Er Hp Hloop Hp1.
  destruct (make_grid_spec L tmax u0 f type) as (a0' & E' & H0 & _).
  rewrite E in E'. inversion E'. subst a0'.
  destruct (run_inv L tmax u0 f type frames _ a0 H0) as (a' & t & Er' & H).
  rewrite Er in Er'. inversion Er'. subst a'. clear E' Er'.
  destruct (speed_loop_inv L tmax u0 f type k t a H)
    as (a2 & t2 & E2 & H2 & _ & Hd).
  rewrite Hloop in E2. inversion E2. subst a2.
  destruct Hd as [Hsame|[_ Hdone]]; [congruence|].
  exists t2. split; [exact Hdone|].
  destruct H2 as (_ & _ & _ & Hsolv).
  destruct type.
  - destruct Hsolv as (_ & s1 & s2 & s3 & s4 & -> & (? & _ & _ & <-)
                       & (? & _ & _ & E2') & (? & _ & _ & E3)
                       & (? & _ & _ & E4)).
    cbn [map option_map]. unfold S1.get_time. now rewrite E2', E3, E4.
  - destruct Hsolv as (_ & s1 & s2 & s3 & s4 & -> & (? & _ & _ & <-)
                       & (? & _ & _ & E2') & (? & _ & _ & E3)
                       & (? & _ & _ & E4)).
    cbn [map option_map]. unfold S2.get_time. now rewrite E2', E3, E4.
Qed.

(** ** The further theorems at concrete inputs *)

Section MoreWitnesses.
Local Open Scope float_scope.

Lemma driver_never_finishes_witness :
  exists s0,
    S1.make Materials.COPPER 1 5e-324 13 80 5%Z = Some s0
    /\ S1.dt_ s0 = 0
    /\ S1.run 1000 s0 = None.
Proof.
  eexists. split; [vm_compute; reflexivity|]. split; [vm_compute; reflexivity|].
  refine (proj1 (driver_never_finishes 5e-324 _) 1000%nat
            Materials.COPPER 1 13 80 5%Z _ _ _).
  - right. split; vm_compute; reflexivity.
  - vm_compute. reflexivity.
  - lia.
Defined.

Lemma grid_pauses_when_done_witness :
  exists a0 a1 t,
    App.make_grid App.PLATE_2D 1 0 13 80 = Some a0
    /\ App.speed_loop 1 a0 = Some a1
    /\ PrimFloat.leb 0 t = true
    /\ map (option_map S2.get_time) (App.solvers_2d_ a1)
       = [Some t; Some t; Some t; Some t].
Proof.
  destruct (make_grid_spec 1 0 13 80 App.PLATE_2D)
    as (a0 & E & H0 & Hp & _).
  destruct (speed_loop_inv 1 0 13 80 App.PLATE_2D 1 0 a0 H0)
    as (a1 & t1 & E1 & _).
  destruct (grid_pauses_when_done App.PLATE_2D 1 0 13 80 [] a0 a0 a1 1 E
              eq_refl Hp E1) as (t & Ht & Hs).
  - pose proof (step_all_inv 1 0 13 80 App.PLATE_2D 0 a0 H0) as Hs.
    change (0 <=? 0) with true in Hs. cbv iota in Hs.
    destruct H0 as (_ & Hg & _).
    simpl App.speed_loop in E1. rewrite Hg, Hs in E1.
    inversion E1. reflexivity.
  - exists a0, a1, t. auto.
Defined.

Lemma app_speed_in_range_witness :
  exists a0 a,
    App.make_grid App.BAR_1D 1 16 13 80 = Some a0
    /\ App.run [[App.SDL_KEYDOWN App.SDLK_UP]] a0 = Some a
    /\ (1 <= App.speed_ a <= 50)%Z.
Proof.
  destruct (make_grid_spec 1 16 13 80 App.BAR_1D) as (a0 & E & H0 & _).
  destruct (run_inv 1 16 13 80 App.BAR_1D [[App.SDL_KEYDOWN App.SDLK_UP]] _ a0 H0)
    as (a & t & Er & _).
  exists a0, a. split; [exact E|]. split; [exact Er|].
  exact (app_speed_in_range App.BAR_1D 1 16 13 80 _ a0 a E Er).
Defined.

Lemma reset_key_restores_start_witness :
  exists a0 a,
    App.make_grid App.BAR_1D 1 16 13 80 = Some a0
    /\ App.run [[]] a0 = Some a
    /\ App.solvers_1d_ (App.process_events a (App.SDL_KEYDOWN App.SDLK_r))
       = App.solvers_1d_ a0.
Proof.
  destruct (make_grid_spec 1 16 13 80 App.BAR_1D) as (a0 & E & H0 & _).
  destruct (run_inv 1 16 13 80 App.BAR_1D [[]] _ a0 H0) as (a & t & Er & _).
  exists a0, a. split; [exact E|]. split; [exact Er|].
  exact (proj1 (reset_key_restores_start App.BAR_1D 1 16 13 80 _ a0 a E Er)).
Defined.

Lemma grid_solvers_share_the_clock_witness :
  exists a0 a t,
    App.make_grid App.BAR_1D 1 16 13 80 = Some a0
    /\ App.run [[]] a0 = Some a
    /\ map (option_map S1.get_time) (App.solvers_1d_ a)
       = [Some t; Some t; Some t; Some t].
Proof.
  destruct (make_grid_spec 1 16 13 80 App.BAR_1D) as (a0 & E & H0 & _).
  destruct (run_inv 1 16 13 80 App.BAR_1D [[]] _ a0 H0) as (a & t & Er & _).
  destruct (grid_solvers_share_the_clock App.BAR_1D 1 16 13 80 _ a0 a E Er)
    as (t1 & Ht).
  exists a0, a, t1. auto.
Defined.

Lemma one_point_grid_stays_witness :
  exists s0 s1,
    S1.make Materials.COPPER 1 16 13 80 1%Z = Some s0
    /\ S1.step s0 = Some (true, s1)
    /\ S1.get_temperature s1 = [13 + 273.15].
Proof.
  eexists. eexists.
  split; [vm_compute; reflexivity|]. split; [vm_compute; reflexivity|].
  refine (proj1 one_point_grid_stays Materials.COPPER 1 16 13 80 _ _ _ _ _ _).
  - vm_compute. reflexivity.
  - apply S1.steps_refl.
  - vm_compute. reflexivity.
Defined.

Lemma step_keeps_configuration_witness :
  exists s0 s1,
    S1.make Materials.COPPER 1 16 13 80 5%Z = Some s0
    /\ S1.step s0 = Some (true, s1)
    /\ S1.get_n s1 = 5%Z
    /\ List.length (S1.get_temperature s1) = 5%nat
    /\ S1.F_ s1 = S1.F_ s0.
Proof.
  eexists. eexists.
  split; [vm_compute; reflexivity|]. split; [vm_compute; reflexivity|].
  refine ((fun K => conj (proj1 K)
             (conj (proj1 (proj2 K))
                (proj2 (proj2 (proj2 (proj2 (proj2 (proj2 (proj2
                   (proj2 K))))))))))
            (proj1 (@step_keeps_configuration float binary64)
               Materials.COPPER 1 16 13 80 5%Z _ _ _ _)).
  - vm_compute. reflexivity.
  - eapply S1.steps_next; [apply S1.steps_refl|vm_compute; reflexivity].
Defined.

Lemma step_count_depends_on_tmax_only_witness :
  exists s0,
    S1.make Materials.IRON 2 16 13 80 5%Z = Some s0
    /\ option_map (fun ks => (fst ks, S1.get_time (snd ks))) (S1.run 2000 s0)
       = clock 2000 0 (16 / 1000) 16.
Proof.
  eexists. split; [vm_compute; reflexivity|].
  refine (proj1 (@step_count_depends_on_tmax_only float binary64 2000)
            Materials.IRON 2 16 13 80 5%Z _ _ _);
    [vm_compute; reflexivity|lia].
Defined.

Lemma view_is_square_witness :
  exists s0 view,
    S2.make Materials.COPPER 1 16 13 80 3%Z = Some s0
    /\ S2.get_temperature_2d s0 = Some view
    /\ List.length view = 3%nat.
Proof.
  destruct (S2.make Materials.COPPER 1 16 13 80 3%Z) as [s0|] eqn:E;
    [|vm_compute in E; discriminate].
  destruct (make2_fields _ _ _ _ _ _ _ E)
    as (_ & _ & _ & _ & _ & _ & _ & _ & Hn & _).
  destruct (proj2 (view_is_square s0) ltac:(rewrite Hn; lia))
    as (view & Hv & Hl & _).
  exists s0, view. rewrite Hn in Hl. auto.
Defined.
End MoreWitnesses.
